(** * Roleplay API: session store, stage classifier and response composer

    A shallow embedding of [app.py].  The module-level globals
    ([chat_history], [product_data], [role_scripts], [session_scores]) become
    the fields of one explicit [state]; the handlers are computations in a
    state-and-exception monad.  Everything outside the process (the
    text-generation service, [uuid4], the files on disk) is an oracle held in
    a [World] record; the state keeps a log of what was asked of it.

    Scope.  Requests are served one after the other.  The request body has
    passed validation, so the role is one of the two literals.  The catalog
    file holds an array of records, each a mapping from field names to
    values.  Exceptions are the ones the source handles or raises itself:
    a failure of the text-generation call, the [HTTPException] of an
    unknown session, and the [KeyError] of an unguarded dict read. *)

From Stdlib Require Import ZArith.
From stdpp Require Import gmap strings list fin_maps pretty.

Local Open Scope Z_scope.
#[local] Set Warnings "-clear-no-such-hyp".

(** ** Text *)

(** Python [str] values are byte strings here (the UTF-8 encoding).  String
    concatenation is stdpp's [+:+]. *)

Definition nl : string := String (Ascii.ascii_of_nat 10) "".
Definition dquote : string := String (Ascii.ascii_of_nat 34) "".
(** U+274C, the cross mark that opens the error marker. *)
Definition cross_mark : string :=
  String (Ascii.ascii_of_nat 226)
    (String (Ascii.ascii_of_nat 157) (String (Ascii.ascii_of_nat 140) "")).

(** [sep.join(l)] *)
Fixpoint join (sep : string) (l : list string) : string :=
  match l with
  | [] => ""
  | [x] => x
  | x :: (_ :: _) as tl => x +:+ sep +:+ join sep tl
  end.

(** A string given by its bytes. *)
Definition bytes (l : list nat) : string :=
  foldr (fun n s => String (Ascii.ascii_of_nat n) s) EmptyString l.

(** The characters [str.strip] trims, each in its UTF-8 encoding: U+0009 to
    U+000D, U+001C to U+0020, U+0085, U+00A0, U+1680, U+2000 to U+200A,
    U+2028, U+2029, U+202F, U+205F and U+3000. *)
Definition white_space : list string :=
  bytes <$>
    [[9]; [10]; [11]; [12]; [13]; [28]; [29]; [30]; [31]; [32];
     [194; 133]; [194; 160]; [225; 154; 128];
     [226; 128; 128]; [226; 128; 129]; [226; 128; 130]; [226; 128; 131];
     [226; 128; 132]; [226; 128; 133]; [226; 128; 134]; [226; 128; 135];
     [226; 128; 136]; [226; 128; 137]; [226; 128; 138];
     [226; 128; 168]; [226; 128; 169]; [226; 128; 175];
     [226; 129; 159]; [227; 128; 128]]%nat.

(** Two of them: U+00A0, the no-break space, and U+2028, the line
    separator. *)
Definition nbsp : string := bytes [194; 160]%nat.
Definition line_separator : string := bytes [226; 128; 168]%nat.

(** [t] is one white-space character. *)
Definition is_white (t : string) : bool := bool_decide (t ∈ white_space).

(** [str.lstrip]: white-space characters are taken off the front, whether
    they are one, two or three bytes long. *)
Fixpoint lstrip (s : string) : string :=
  match s with
  | String a s1 =>
      if is_white (String a EmptyString) then lstrip s1
      else
        match s1 with
        | String b s2 =>
            if is_white (String a (String b EmptyString)) then lstrip s2
            else
              match s2 with
              | String c s3 =>
                  if is_white (String a (String b (String c EmptyString)))
                  then lstrip s3 else s
              | EmptyString => s
              end
        | EmptyString => s
        end
  | EmptyString => EmptyString
  end.

(** [str.rstrip]: going from the end, the bytes kept so far are dropped
    once, with the byte before them, they are one white-space character. *)
Fixpoint rstrip (s : string) : string :=
  match s with
  | String c s' =>
      let r := rstrip s' in
      if is_white (String c r) then EmptyString else String c r
  | EmptyString => EmptyString
  end.

(** [str.strip] *)
Definition strip (s : string) : string := rstrip (lstrip s).

(** [str.lower] on the letters A to Z.  The lower-case form of any other
    character holds a byte outside the ASCII range, except that of U+212A,
    which is the letter k; as no stage label has a k, a text lowers to a
    stage label exactly when it does so here. *)
Definition lower_char (c : Ascii.ascii) : Ascii.ascii :=
  let n := Ascii.nat_of_ascii c in
  if ((65 <=? n)%nat && (n <=? 90)%nat)%bool then Ascii.ascii_of_nat (n + 32) else c.

Fixpoint lower (s : string) : string :=
  match s with
  | String c s' => String (lower_char c) (lower s')
  | EmptyString => EmptyString
  end.

(** [s.split("\n")] *)
Fixpoint split_nl (s : string) : list string :=
  match s with
  | EmptyString => [EmptyString]
  | String c s' =>
      if Ascii.eqb c (Ascii.ascii_of_nat 10) then EmptyString :: split_nl s'
      else match split_nl s' with
           | x :: xs => String c x :: xs
           | [] => [String c EmptyString]
           end
  end.

(** ** Data model *)

(** [role: Literal["seller", "buyer"]] *)
Inductive role := seller | buyer.

#[global] Instance role_eq_dec : EqDecision role.
Proof. solve_decision. Defined.

Definition role_name (r : role) : string :=
  match r with seller => "seller" | buyer => "buyer" end.

(** A catalog entry is a Python dict (a JSON object or a CSV row); its values
    are kept in the form an f-string prints them. *)
Abbreviation product := (gmap string string).

(** A scoreboard is the inner dict of [session_scores]: label to count. *)
Abbreviation scoreboard := (gmap string Z).

(** One element of [chat_history]: [{"role": ..., "parts": [...]}]. *)
Inductive speaker := user | model.

Record turn := { turn_role : speaker; parts : list string }.

(** What [model.generate_content] is given: one instruction string
    ([detect_conversation_stage]) or the transcript ([generate_response]). *)
Inductive content :=
| Instruction (text : string)
| Transcript (history : list turn).

(** What comes back: the text of the response, or an exception raised by
    the call or by reading [response.text]; [reason] is [str(e)]. *)
Inductive outcome :=
| Generated (text : string)
| Failed (reason : string).

(** The world outside the process.  [generate_content] sees the log of the
    earlier calls, so any behaviour of the service over one run is an
    instance; [uuid4] and [read_products] are indexed by the number of
    earlier draws and reads.  [read_products] is [None] when neither file
    exists or when reading fails (the source prints the error and leaves
    [product_data] as it was).  [read_script] is what [f.read()] gives for
    the script file of a role, and [None] when the file is missing or
    reading it fails. *)
Record World := {
  uuid4 : nat -> string;
  generate_content : list (content * outcome) -> content -> outcome;
  read_products : nat -> option (list product);
  read_script : role -> option string;
}.

Record state := {
  chat_history : list turn;
  product_data : list product;
  role_scripts : role -> list string;
  session_scores : gmap string scoreboard;
  (* the interaction with the world so far *)
  model_calls : list (content * outcome);
  uuid_draws : nat;
  catalog_reads : nat;
}.

Definition set_chat_history (h : list turn) (st : state) : state :=
  {| chat_history := h; product_data := product_data st;
     role_scripts := role_scripts st; session_scores := session_scores st;
     model_calls := model_calls st; uuid_draws := uuid_draws st;
     catalog_reads := catalog_reads st |}.

Definition set_product_data (d : list product) (st : state) : state :=
  {| chat_history := chat_history st; product_data := d;
     role_scripts := role_scripts st; session_scores := session_scores st;
     model_calls := model_calls st; uuid_draws := uuid_draws st;
     catalog_reads := catalog_reads st |}.

Definition set_role_scripts (f : role -> list string) (st : state) : state :=
  {| chat_history := chat_history st; product_data := product_data st;
     role_scripts := f; session_scores := session_scores st;
     model_calls := model_calls st; uuid_draws := uuid_draws st;
     catalog_reads := catalog_reads st |}.

Definition set_session_scores (m : gmap string scoreboard) (st : state) : state :=
  {| chat_history := chat_history st; product_data := product_data st;
     role_scripts := role_scripts st; session_scores := m;
     model_calls := model_calls st; uuid_draws := uuid_draws st;
     catalog_reads := catalog_reads st |}.

Definition set_model_calls (l : list (content * outcome)) (st : state) : state :=
  {| chat_history := chat_history st; product_data := product_data st;
     role_scripts := role_scripts st; session_scores := session_scores st;
     model_calls := l; uuid_draws := uuid_draws st;
     catalog_reads := catalog_reads st |}.

Definition set_uuid_draws (n : nat) (st : state) : state :=
  {| chat_history := chat_history st; product_data := product_data st;
     role_scripts := role_scripts st; session_scores := session_scores st;
     model_calls := model_calls st; uuid_draws := n;
     catalog_reads := catalog_reads st |}.

Definition set_catalog_reads (n : nat) (st : state) : state :=
  {| chat_history := chat_history st; product_data := product_data st;
     role_scripts := role_scripts st; session_scores := session_scores st;
     model_calls := model_calls st; uuid_draws := uuid_draws st;
     catalog_reads := n |}.

(** ** The monad: state, and Python exceptions *)

Inductive exn :=
| HTTPException (status_code : Z) (detail : string)
| Exception (msg : string).

Inductive result (A : Type) :=
| Ret (a : A)
| Raise (e : exn).
Arguments Ret {A} a.
Arguments Raise {A} e.

Definition M (A : Type) : Type := state -> result A * state.

#[global] Instance M_ret : MRet M := fun A a st => (Ret a, st).

#[global] Instance M_bind : MBind M := fun A B f m st =>
  match m st with
  | (Ret a, st') => f a st'
  | (Raise e, st') => (Raise e, st')
  end.

Definition raise {A} (e : exn) : M A := fun st => (Raise e, st).
Definition get_state : M state := fun st => (Ret st, st).
Definition modify (f : state -> state) : M unit := fun st => (Ret tt, f st).

(** [try: body / except ... as e: handler e]: the state reached when the
    exception was raised is the one the handler starts from. *)
Definition try_except {A} (body : M A) (handler : exn -> M A) : M A := fun st =>
  match body st with
  | (Ret a, st') => (Ret a, st')
  | (Raise e, st') => handler e st'
  end.

(** [str(e)] *)
Definition str_exn (e : exn) : string :=
  match e with
  | Exception msg => msg
  | HTTPException c d => pretty c +:+ ": " +:+ d
  end.

(** The status the framework answers with. *)
Definition http_status {A} (r : result A) : Z :=
  match r with
  | Ret _ => 200
  | Raise (HTTPException c _) => c
  | Raise (Exception _) => 500
  end.

(** ** The program *)

Section App.

Context (W : World).

(** [model.generate_content(c)] followed by reading [.text]: asks the world,
    logs the call, and raises when it failed. *)
Definition model_generate_content (c : content) : M string := fun st =>
  let o := generate_content W (model_calls st) c in
  let st' := set_model_calls (model_calls st ++ [(c, o)]) st in
  match o with
  | Generated text => (Ret text, st')
  | Failed reason => (Raise (Exception reason), st')
  end.

(** *** Loading the local files *)

Definition load_local_product_data : M unit := fun st =>
  let st' := set_catalog_reads (S (catalog_reads st)) st in
  match read_products W (catalog_reads st) with
  | Some d => (Ret tt, set_product_data d st')
  | None => (Ret tt, st')
  end.

(** [f.read().strip().split("\n")] *)
Definition script_lines (content : string) : list string :=
  split_nl (strip content).

Definition load_script (r : role) : M unit := fun st =>
  match read_script W r with
  | Some content =>
      (Ret tt, set_role_scripts
                 (fun r' => if decide (r' = r) then script_lines content
                            else role_scripts st r') st)
  | None => (Ret tt, st)
  end.

(** [for role in ["seller", "buyer"]: ...] *)
Definition load_local_scripts : M unit :=
  load_script seller;; load_script buyer.

(** *** Detect stage from prompt *)

Definition stage_options : list string :=
  ["opening"; "discovery"; "presentation"; "objection_handling"; "closing";
   "follow_up"; "general"].

Definition stage_prompt (prompt : string) (r : role) : string :=
  "You are a role-play assistant in a " +:+ role_name r +:+
    " scenario. Based on the following input, identify the stage:" +:+ nl +:+
  "Options: opening, discovery, presentation, objection_handling, closing, follow_up, general" +:+ nl +:+
  "Input: " +:+ dquote +:+ prompt +:+ dquote +:+ nl +:+
  "Return only the stage name.".

Definition detect_conversation_stage (prompt : string) (r : role) : M string :=
  try_except
    (text ← model_generate_content (Instruction (stage_prompt prompt r));
     let detected := lower (strip text) in
     mret (if bool_decide (detected ∈ stage_options) then detected else "general"))
    (fun _ => mret "general").

(** *** Update score for stage *)

Definition update_stage_score (stage session_id : string) : M unit := fun st =>
  match session_scores st !! session_id with
  | Some sb =>
      match sb !! stage with
      | Some n =>
          (Ret tt,
           set_session_scores
             (<[session_id := <[stage := n + 1]> sb]> (session_scores st)) st)
      | None => (Ret tt, st)
      end
  | None => (Ret tt, st)
  end.

(** *** Generate chat response *)

(** One element of the comprehension over [product_data[:5]]. *)
Definition product_line (p : product) : string :=
  "- " +:+ default "Unknown" (p !! "name") +:+
  " ($" +:+ default "N/A" (p !! "price") +:+ ")" +:+ nl +:+
  "  " +:+ default "" (p !! "description").

(** [x or y] on strings *)
Definition str_or (x y : string) : string :=
  match x with EmptyString => y | _ => x end.

Definition products_text (catalog : list product) : string :=
  str_or (join (nl +:+ nl) (product_line <$> take 5 catalog)) "No product data.".

Definition script_section (script : list string) : string :=
  match script with
  | [] => ""
  | _ => nl +:+ nl +:+ "Script:" +:+ nl +:+ join nl script
  end.

Definition context_line (r : role) (stage : string) : string :=
  "You are a " +:+ role_name r +:+ ". You are in the " +:+ stage +:+
  " stage of the role-play.".

Definition full_prompt (prompt stage : string) (r : role)
    (catalog : list product) (script : list string) : string :=
  context_line r stage +:+ nl +:+ nl +:+ "Products:" +:+ nl +:+
  products_text catalog +:+ script_section script +:+ nl +:+ nl +:+
  "User: " +:+ prompt +:+ nl +:+ "Respond naturally.".

Definition error_marker (reason : string) : string :=
  cross_mark +:+ " Response error: " +:+ reason.

Definition append_history (t : turn) : M unit :=
  modify (fun st => set_chat_history (chat_history st ++ [t]) st).

Definition generate_response (prompt stage : string) (r : role)
    (session_id : string) : M string :=
  st ← get_state;
  (match product_data st with [] => load_local_product_data | _ => mret tt end);;
  stage ← (if bool_decide (stage = "auto")
           then detect_conversation_stage prompt r else mret stage);
  update_stage_score stage session_id;;
  st ← get_state;
  let text := full_prompt prompt stage r (product_data st) (role_scripts st r) in
  try_except
    (append_history {| turn_role := user; parts := [text] |};;
     st ← get_state;
     reply ← model_generate_content (Transcript (chat_history st));
     append_history {| turn_role := model; parts := [reply] |};;
     mret reply)
    (fun e => mret (error_marker (str_exn e))).

(** *** The endpoints *)

(** The dict literal of [start_session]. *)
Definition fresh_scoreboard : scoreboard :=
  <["opening" := 0]> (<["discovery" := 0]> (<["presentation" := 0]>
  (<["objection_handling" := 0]> (<["closing" := 0]> (<["follow_up" := 0]>
  (<["general" := 0]> ∅)))))).

Record ChatInput := {
  prompt : string;
  chat_role : role;
  session_id : string;
  stage : string;          (* "auto" when the request leaves it out *)
}.

(** The JSON bodies the endpoints answer with. *)
Inductive body :=
| StartBody (sid : string)
| ChatBody (sid : string) (response : string) (scores : scoreboard)
| ScoresBody (sid : string) (scores : scoreboard)
| RootBody (message : string).

Definition invalid_session : exn := HTTPException 400 "Invalid session ID".

(** [session_scores[k]] read outside any guard: a missing key is a
    [KeyError]. *)
Definition scores_of (k : string) : M scoreboard := fun st =>
  match session_scores st !! k with
  | Some sb => (Ret sb, st)
  | None => (Raise (Exception ("'" +:+ k +:+ "'")), st)
  end.

Definition start_session : M body := fun st =>
  let sid := uuid4 W (uuid_draws st) in
  (Ret (StartBody sid),
   set_session_scores (<[sid := fresh_scoreboard]> (session_scores st))
     (set_uuid_draws (S (uuid_draws st)) st)).

Definition chat_handler (data : ChatInput) : M body :=
  st ← get_state;
  if bool_decide (session_id data ∈ dom (session_scores st)) then
    response ← generate_response (prompt data) (stage data) (chat_role data)
                 (session_id data);
    scores ← scores_of (session_id data);
    mret (ChatBody (session_id data) response scores)
  else raise invalid_session.

Definition get_scores (sid : string) : M body :=
  st ← get_state;
  if bool_decide (sid ∈ dom (session_scores st)) then
    scores ← scores_of sid;
    mret (ScoresBody sid scores)
  else raise invalid_session.

(** U+2705, the check mark of the liveness message. *)
Definition check_mark : string :=
  String (Ascii.ascii_of_nat 226)
    (String (Ascii.ascii_of_nat 156) (String (Ascii.ascii_of_nat 133) "")).

Definition root : M body :=
  mret (RootBody (check_mark +:+ " Roleplay API is live. Use /start, /chat, /scores.")).

(** *** The process *)

Inductive request :=
| GetStart
| PostChat (data : ChatInput)
| GetScores (sid : string)
| GetRoot.

Definition handle (rq : request) : M body :=
  match rq with
  | GetStart => start_session
  | PostChat data => chat_handler data
  | GetScores sid => get_scores sid
  | GetRoot => root
  end.

(** The module-level assignments, then the two loads made at import time. *)
Definition empty_state : state :=
  {| chat_history := []; product_data := [];
     role_scripts := fun _ => []; session_scores := ∅;
     model_calls := []; uuid_draws := 0%nat; catalog_reads := 0%nat |}.

Definition startup : state :=
  snd ((load_local_product_data;; load_local_scripts) empty_state).

(** Requests served one after the other: the answers, and the state left. *)
Fixpoint serve (rqs : list request) (st : state) : list (result body) * state :=
  match rqs with
  | [] => ([], st)
  | rq :: rqs' =>
      let '(a, st1) := handle rq st in
      let '(answers, st2) := serve rqs' st1 in
      (a :: answers, st2)
  end.

(** A state the process can be in: the one after some requests. *)
Definition reachable (st : state) : Prop :=
  exists rqs, snd (serve rqs startup) = st.

(** The identifiers [/start] has handed out among some answers. *)
Definition created_ids (answers : list (result body)) : list string :=
  omap (fun a => match a with Ret (StartBody sid) => Some sid | _ => None end)
       answers.

End App.

(** ** Vocabulary of the statements *)

Section Vocabulary.

Context (W : World).

(** The seven labels as a set. *)
Definition stage_set : gset string := list_to_set stage_options.

(** Every scoreboard of the store has exactly the seven keys. *)
Definition scoreboards_complete (st : state) : Prop :=
  forall sid sb, session_scores st !! sid = Some sb -> dom sb = stage_set.

(** [t] occurs in [s]. *)
Definition contains (s t : string) : Prop :=
  exists pre post, s = pre +:+ t +:+ post.

(** What the classification call of a turn is answered, asked in [st]. *)
Definition classification (prompt : string) (r : role) (st : state) : outcome :=
  generate_content W (model_calls st) (Instruction (stage_prompt prompt r)).

(** The classification gave no usable label: the call failed, or the
    trimmed and lower-cased text is none of the seven. *)
Definition unusable (o : outcome) : bool :=
  match o with
  | Failed _ => true
  | Generated text => negb (bool_decide (lower (strip text) ∈ stage_options))
  end.

(** The label a turn is counted under: the requested one, or the
    classifier's when the request says "auto". *)
Definition resolved_stage (data : ChatInput) (st : state) : string :=
  if bool_decide (stage data = "auto") then
    match fst (detect_conversation_stage W (prompt data) (chat_role data) st) with
    | Ret s => s
    | Raise _ => "general"
    end
  else stage data.

(** The catalog a turn is composed from: reloaded first when empty. *)
Definition catalog_in_use (st : state) : list product :=
  match product_data st with
  | [] => product_data (snd (load_local_product_data W st))
  | d => d
  end.

(** The text of the user turn of a chat request. *)
Definition composed (data : ChatInput) (st : state) : string :=
  full_prompt (prompt data) (resolved_stage data st) (chat_role data)
    (catalog_in_use st) (role_scripts st (chat_role data)).

Definition user_turn (text : string) : turn := {| turn_role := user; parts := [text] |}.
Definition model_turn (text : string) : turn := {| turn_role := model; parts := [text] |}.

(** The calls a chat request makes before the reply-generation call. *)
Definition calls_before_reply (data : ChatInput) (st : state) : list (content * outcome) :=
  model_calls st ++
  (if bool_decide (stage data = "auto")
   then [(Instruction (stage_prompt (prompt data) (chat_role data)),
          classification (prompt data) (chat_role data) st)]
   else []).

(** A scoreboard after one more turn under label [s]; a label that is not
    a key counts nowhere. *)
Definition counted (s : string) (sb : scoreboard) : scoreboard :=
  match sb !! s with
  | Some n => <[s := n + 1]> sb
  | None => sb
  end.

(** One chat request per prompt and role, all for session [sid] and all
    naming the stage [s]. *)
Definition chat_requests (sid s : string) (turns : list (string * role)) : list request :=
  (fun t => PostChat {| prompt := fst t; chat_role := snd t;
                        session_id := sid; stage := s |}) <$> turns.

(** What the reply-generation call of a chat request is answered. *)
Definition reply_outcome (data : ChatInput) (st : state) : outcome :=
  generate_content W (calls_before_reply data st)
    (Transcript (chat_history st ++ [user_turn (composed data st)])).

(** The turns one request adds to the transcript when served in [st]:
    none unless it is a chat request of a session the store knows. *)
Definition turns_of (rq : request) (st : state) : list turn :=
  match rq with
  | PostChat data =>
      if bool_decide (session_id data ∈ dom (session_scores st)) then
        user_turn (composed data st) ::
        match reply_outcome data st with
        | Generated reply => [model_turn reply]
        | Failed _ => []
        end
      else []
  | _ => []
  end.

(** The turns of a run of requests, in the order the requests are served. *)
Fixpoint transcript_of (rqs : list request) (st : state) : list turn :=
  match rqs with
  | [] => []
  | rq :: rqs' => turns_of rq st ++ transcript_of rqs' (snd (handle W rq st))
  end.

End Vocabulary.

(** ** Two worlds to run the program in *)

Definition read_nothing : nat -> option (list product) := fun _ => None.
Definition no_script : role -> option string := fun _ => None.
Definition numbered_uuid (n : nat) : string := "s" +:+ pretty n.

(** The service answers every call. *)
Definition helpful_world : World :=
  {| uuid4 := numbered_uuid;
     generate_content := fun _ c =>
       match c with
       | Instruction _ => Generated " Closing "
       | Transcript _ => Generated "Deal."
       end;
     read_products := fun _ =>
       Some [ <["name" := "Pen"]> (<["price" := "2"]> (<["description" := "Blue ink"]> ∅)) ];
     read_script := fun r =>
       match r with seller => Some ("Greet" +:+ nl +:+ "Offer") | buyer => None end |}.

(** Every call of the service fails. *)
Definition failing_world : World :=
  {| uuid4 := numbered_uuid;
     generate_content := fun _ _ => Failed "quota exceeded";
     read_products := read_nothing;
     read_script := no_script |}.

(** The state after start-up and one [/start], whose answer is ["s0"]. *)
Definition one_session (W : World) : state :=
  snd (serve W [GetStart] (startup W)).

Definition hello (s : string) : ChatInput :=
  {| prompt := "Hi"; chat_role := seller; session_id := "s0"; stage := s |}.

(** The state in which session "s0" has had one turn and session "s1" none. *)
Definition two_sessions : state :=
  snd (serve helpful_world [GetStart; GetStart; PostChat (hello "opening")]
         (startup helpful_world)).

Definition hello_s1 : ChatInput :=
  {| prompt := "Too dear"; chat_role := buyer; session_id := "s1";
     stage := "objection_handling" |}.

(** ** Vocabulary of the further properties *)

(** The sum of the seven counters of a scoreboard. *)
Definition total (sb : scoreboard) : Z :=
  foldr (fun l acc => default 0 (sb !! l) + acc) 0 stage_options.

(** A request that is no [/start] and no chat of session [sid]. *)
Definition leaves_alone (sid : string) (rq : request) : bool :=
  match rq with
  | GetStart => false
  | PostChat data => negb (bool_decide (session_id data = sid))
  | GetScores _ | GetRoot => true
  end.

Definition is_start (rq : request) : bool :=
  match rq with GetStart => true | _ => false end.

(** No counter of the store is below zero. *)
Definition counters_nonnegative (st : state) : Prop :=
  forall sid sb l n,
    session_scores st !! sid = Some sb -> sb !! l = Some n -> 0 <= n.

(** Every transcript the service was given is a beginning of the present
    transcript and ends with a user turn. *)
Definition log_follows_transcript (st : state) : Prop :=
  forall h o,
    (Transcript h, o) ∈ model_calls st ->
    h `prefix_of` chat_history st /\
    exists h0 text, h = h0 ++ [user_turn text].

(** Every turn of the transcript is on the log of calls: a user turn as
    the last turn of a transcript the service was given, a model turn as
    the text the service answered such a call with. *)
Definition transcript_is_logged (st : state) : Prop :=
  forall t,
    t ∈ chat_history st ->
    match turn_role t with
    | user => exists h o, (Transcript (h ++ [t]), o) ∈ model_calls st
    | model =>
        exists h reply,
          parts t = [reply] /\ (Transcript h, Generated reply) ∈ model_calls st
    end.

(** A stage under which a turn is counted: "auto", or one of the seven. *)
Definition counting_stage (s : string) : bool :=
  bool_decide (s = "auto") || bool_decide (s ∈ stage_options).

(** The number of turns of one speaker in a transcript. *)
Definition spoken_by (who : speaker) (h : list turn) : nat :=
  length (List.filter
            (fun t => match turn_role t, who with
                      | user, user | model, model => true
                      | _, _ => false
                      end) h).

(** The outcomes of the reply-generation calls on a log, oldest first. *)
Definition reply_calls (log : list (content * outcome)) : list outcome :=
  omap (fun c => match fst c with
                 | Transcript _ => Some (snd c)
                 | Instruction _ => None
                 end) log.

Definition succeeded (o : outcome) : bool :=
  match o with Generated _ => true | Failed _ => false end.

(** The transcript has one user turn per reply-generation call and one
    model turn per such call that succeeded. *)
Definition turns_match_calls (st : state) : Prop :=
  spoken_by user (chat_history st) = length (reply_calls (model_calls st)) /\
  spoken_by model (chat_history st) =
  length (List.filter succeeded (reply_calls (model_calls st))).

(** The number of generation calls a request makes when served in [st]. *)
Definition calls_made (rq : request) (st : state) : nat :=
  match rq with
  | PostChat data =>
      if bool_decide (session_id data ∈ dom (session_scores st)) then
        if bool_decide (stage data = "auto") then 2 else 1
      else 0
  | _ => 0
  end%nat.

(** A string of white-space characters only: one that strips to nothing. *)
Definition blank (s : string) : bool := String.eqb (lstrip s) "".

(** What follows the white-space character [s] begins with, if it begins
    with one. *)
Definition white_prefix (s : string) : option string :=
  match s with
  | String a s1 =>
      if is_white (String a EmptyString) then Some s1
      else
        match s1 with
        | String b s2 =>
            if is_white (String a (String b EmptyString)) then Some s2
            else
              match s2 with
              | String c s3 =>
                  if is_white (String a (String b (String c EmptyString)))
                  then Some s3 else None
              | EmptyString => None
              end
        | EmptyString => None
        end
  | EmptyString => None
  end.

(** A byte that begins some white-space character. *)
Definition lead (b : Ascii.ascii) : bool :=
  existsb (fun w => match w with
                    | String x _ => Ascii.eqb x b
                    | EmptyString => false
                    end) white_space.

(** A string without the letters a to z. *)
Fixpoint no_small (s : string) : bool :=
  match s with
  | String c s' =>
      let n := Ascii.nat_of_ascii c in
      negb ((97 <=? n)%nat && (n <=? 122)%nat) && no_small s'
  | EmptyString => true
  end.

(** The service pads its classification with U+00A0 before and U+2028 and
    a newline after, and writes it in capitals. *)
Definition padded_world : World :=
  {| uuid4 := numbered_uuid;
     generate_content := fun _ c =>
       match c with
       | Instruction _ =>
           Generated (nbsp +:+ "CLOSING" +:+ line_separator +:+ nl)
       | Transcript _ => Generated "Deal."
       end;
     read_products := read_nothing;
     read_script := no_script |}.

(** The service answers the classification with the bare label. *)
Definition terse_world : World :=
  {| uuid4 := numbered_uuid;
     generate_content := fun _ c =>
       match c with
       | Instruction _ => Generated "closing"
       | Transcript _ => Generated "Deal."
       end;
     read_products := read_nothing;
     read_script := fun r =>
       match r with
       | seller => Some ("  Greet" +:+ nl +:+ "Offer" +:+ nl)
       | buyer => Some ""
       end |}.

(** Three turns of session "s0": classified, fixed, classified. *)
Definition three_turns : list ChatInput :=
  [hello "auto"; hello "opening"; hello "auto"].

(** ** Properties *)

(** *** Text *)

Example strip_lower_ex : lower (strip ("  Closing" +:+ nl)) = "closing".
Proof. reflexivity. Qed.

Example join_ex : join ", " ["a"; "b"; "c"] = "a, b, c".
Proof. reflexivity. Qed.

(** U+00A0 and U+2028 are trimmed like a space; inside they stay. *)
Example strip_unicode_ex :
  lower (strip (nbsp +:+ "Closing" +:+ line_separator +:+ nl)) = "closing" /\
  strip (" a" +:+ nbsp +:+ "b ") = "a" +:+ nbsp +:+ "b".
Proof. split; reflexivity. Qed.

Lemma append_assoc (a b c : string) : (a +:+ b) +:+ c = a +:+ (b +:+ c).
Proof.
  induction a as [|x a IH]; [reflexivity|].
  change (String x ((a +:+ b) +:+ c) = String x (a +:+ b +:+ c)). by rewrite IH.
Qed.

Lemma append_nil_r (a : string) : a +:+ "" = a.
Proof.
  induction a as [|x a IH]; [reflexivity|].
  change (String x (a +:+ "") = String x a). by rewrite IH.
Qed.

Lemma contains_refl s : contains s s.
Proof. exists "", "". cbn. by rewrite append_nil_r. Qed.

Lemma contains_app_l a b t : contains a t -> contains (a +:+ b) t.
Proof.
  intros (pre & post & ->). exists pre, (post +:+ b).
  by rewrite !append_assoc.
Qed.

Lemma contains_app_r a b t : contains b t -> contains (a +:+ b) t.
Proof.
  intros (pre & post & ->). exists (a +:+ pre), post.
  by rewrite !append_assoc.
Qed.

Lemma contains_trans s t u : contains s t -> contains t u -> contains s u.
Proof.
  intros (pre & post & ->) (pre' & post' & ->).
  exists (pre +:+ pre'), (post' +:+ post). by rewrite !append_assoc.
Qed.

Lemma contains_join sep l x : x ∈ l -> contains (join sep l) x.
Proof.
  induction l as [|y l IH]; [by intros ?%elem_of_nil|].
  intros [->|Hx]%elem_of_cons.
  - destruct l; [apply contains_refl|]. apply contains_app_l, contains_refl.
  - destruct l as [|z l]; [by apply elem_of_nil in Hx|].
    cbn [join]. by apply contains_app_r, contains_app_r, IH.
Qed.

Lemma join_product_lines sep p (l : list product) :
  str_or (join sep (product_line <$> p :: l)) "No product data." =
  join sep (product_line <$> p :: l).
Proof. rewrite fmap_cons. by destruct (product_line <$> l). Qed.

Lemma products_text_cases catalog :
  products_text catalog =
  match catalog with
  | [] => "No product data."
  | _ => join (nl +:+ nl) (product_line <$> take 5 catalog)
  end.
Proof.
  unfold products_text. destruct catalog as [|p catalog]; [reflexivity|].
  change (take 5 (p :: catalog)) with (p :: take 4 catalog).
  apply join_product_lines.
Qed.

Lemma context_line_stage r s :
  contains (context_line r s) ("You are in the " +:+ s +:+ " stage of the role-play.").
Proof.
  exists ("You are a " +:+ role_name r +:+ ". "), "".
  unfold context_line. rewrite append_nil_r, !append_assoc. reflexivity.
Qed.

Create HintDb text.
#[local] Hint Resolve contains_refl contains_app_l contains_app_r : text.

Lemma context_line_role r s : contains (context_line r s) (role_name r).
Proof. unfold context_line. auto with text. Qed.

Section Properties.

Context (W : World).

Lemma detect_conversation_stage_run prompt r st :
  detect_conversation_stage W prompt r st =
  (Ret (match classification W prompt r st with
        | Generated text =>
            if bool_decide (lower (strip text) ∈ stage_options)
            then lower (strip text) else "general"
        | Failed _ => "general"
        end),
   set_model_calls
     (model_calls st ++ [(Instruction (stage_prompt prompt r),
                          classification W prompt r st)]) st).
Proof.
  unfold detect_conversation_stage, try_except, mbind, M_bind,
    model_generate_content, classification, mret, M_ret.
  destruct (generate_content W _ _); reflexivity.
Qed.

Lemma update_stage_score_run s sid st :
  update_stage_score s sid st =
  (Ret tt,
   match session_scores st !! sid with
   | Some sb =>
       match sb !! s with
       | Some n => set_session_scores (<[sid := <[s := n + 1]> sb]> (session_scores st)) st
       | None => st
       end
   | None => st
   end).
Proof.
  unfold update_stage_score.
  destruct (session_scores st !! sid) as [sb|]; [|reflexivity].
  destruct (sb !! s); reflexivity.
Qed.

(** The whole effect of [generate_response], in one equation. *)
Lemma generate_response_run data st :
  let s := resolved_stage W data st in
  let text := composed W data st in
  let h := chat_history st ++ [user_turn text] in
  let o := reply_outcome W data st in
  generate_response W (prompt data) (stage data) (chat_role data) (session_id data) st =
  (Ret (match o with Generated reply => reply | Failed reason => error_marker reason end),
   {| chat_history := h ++ match o with Generated reply => [model_turn reply] | Failed _ => [] end;
      product_data := catalog_in_use W st;
      role_scripts := role_scripts st;
      session_scores := session_scores (snd (update_stage_score s (session_id data) st));
      model_calls := calls_before_reply W data st ++ [(Transcript h, o)];
      uuid_draws := uuid_draws st;
      catalog_reads := match product_data st with
                       | [] => S (catalog_reads st) | _ => catalog_reads st end |}).
Proof.
  destruct data as [p r sid sg]; destruct st as [h0 pd rs sc mc ud cr].
  unfold reply_outcome, composed, calls_before_reply, resolved_stage,
    catalog_in_use, generate_response, user_turn, model_turn;
    cbn [prompt stage chat_role session_id].
  rewrite !detect_conversation_stage_run.
  unfold mbind, M_bind, mret, M_ret, get_state, try_except, append_history,
    modify, load_local_product_data, model_generate_content, classification.
  cbn.
  destruct pd as [|p0 pd]; cbn; [destruct (read_products W cr); cbn|];
    (case_bool_decide;
     [rewrite ?detect_conversation_stage_run; unfold classification; cbn;
      destruct (generate_content W mc (Instruction (stage_prompt p r))); cbn|];
     rewrite !update_stage_score_run; cbn; rewrite ?app_nil_r;
     repeat match goal with
            | |- context [match ?x !! ?k with _ => _ end] => destruct (x !! k); cbn
            end;
     match goal with
     | |- context [generate_content W ?l ?c] => destruct (generate_content W l c); cbn
     end; rewrite ?app_nil_r; reflexivity).
Qed.

Lemma session_scores_counted s sid st sb :
  session_scores st !! sid = Some sb ->
  session_scores (snd (update_stage_score s sid st)) =
  <[sid := counted s sb]> (session_scores st).
Proof.
  intros Hsb. rewrite update_stage_score_run. cbn [snd]. rewrite Hsb.
  unfold counted. destruct (sb !! s); cbn.
  - reflexivity.
  - symmetry. by apply insert_id.
Qed.

(** A chat request on a known session, in one equation. *)
Lemma chat_handler_run data st sb :
  session_scores st !! session_id data = Some sb ->
  chat_handler W data st =
  (Ret (ChatBody (session_id data)
          (match reply_outcome W data st with
           | Generated reply => reply
           | Failed reason => error_marker reason
           end)
          (counted (resolved_stage W data st) sb)),
   snd (generate_response W (prompt data) (stage data) (chat_role data)
          (session_id data) st)).
Proof.
  intros Hsb. unfold chat_handler, mbind, M_bind, get_state.
  rewrite bool_decide_eq_true_2 by (apply elem_of_dom; eauto).
  rewrite generate_response_run. cbn [snd].
  unfold scores_of. cbn [session_scores].
  rewrite (session_scores_counted _ _ _ _ Hsb), lookup_insert_eq.
  reflexivity.
Qed.

Lemma chat_handler_unknown data st :
  session_scores st !! session_id data = None ->
  chat_handler W data st = (Raise invalid_session, st).
Proof.
  intros Hno. unfold chat_handler, mbind, M_bind, get_state.
  rewrite bool_decide_eq_false_2; [reflexivity|].
  by rewrite not_elem_of_dom.
Qed.

Lemma get_scores_run sid st :
  get_scores sid st =
  (match session_scores st !! sid with
   | Some sb => Ret (ScoresBody sid sb)
   | None => Raise invalid_session
   end, st).
Proof.
  unfold get_scores, mbind, M_bind, get_state, scores_of.
  destruct (session_scores st !! sid) as [sb|] eqn:Hsb.
  - rewrite bool_decide_eq_true_2 by (apply elem_of_dom; eauto).
    by rewrite Hsb.
  - rewrite bool_decide_eq_false_2; [reflexivity|].
    by rewrite not_elem_of_dom.
Qed.

(** *** The store of scoreboards along a run *)

Lemma dom_fresh_scoreboard : dom fresh_scoreboard = stage_set.
Proof.
  unfold fresh_scoreboard, stage_set, stage_options.
  rewrite !dom_insert_L, dom_empty_L. cbn [list_to_set foldr]. set_solver.
Qed.

Lemma fresh_scoreboard_lookup l :
  fresh_scoreboard !! l = if bool_decide (l ∈ stage_options) then Some 0 else None.
Proof.
  unfold fresh_scoreboard, stage_options.
  case_bool_decide as Hl.
  - set_unfold. repeat (destruct Hl as [->|Hl]; [reflexivity|]). by subst.
  - set_unfold.
    rewrite !lookup_insert_ne by (intros <-; apply Hl; tauto).
    reflexivity.
Qed.

Lemma dom_counted s sb : dom (counted s sb) = dom sb.
Proof.
  unfold counted. destruct (sb !! s) as [n|] eqn:Hs; [|reflexivity].
  rewrite dom_insert_L. apply subseteq_union_1_L, singleton_subseteq_l.
  by apply elem_of_dom_2 in Hs.
Qed.

Lemma counted_lookup s sb l :
  counted s sb !! l = if decide (l = s) then (fun n => n + 1) <$> sb !! l else sb !! l.
Proof.
  unfold counted. destruct (decide (l = s)) as [->|Hne].
  - destruct (sb !! s) as [n|] eqn:Hs; [by rewrite lookup_insert_eq|by rewrite Hs].
  - destruct (sb !! s); [by rewrite lookup_insert_ne|reflexivity].
Qed.

(** What one request does to the store. *)
Lemma handle_session_scores rq st :
  session_scores (snd (handle W rq st)) =
  match rq with
  | GetStart => <[uuid4 W (uuid_draws st) := fresh_scoreboard]> (session_scores st)
  | PostChat data =>
      match session_scores st !! session_id data with
      | Some sb =>
          <[session_id data := counted (resolved_stage W data st) sb]> (session_scores st)
      | None => session_scores st
      end
  | GetScores _ | GetRoot => session_scores st
  end.
Proof.
  destruct rq as [|data|sid|]; cbn [handle].
  - reflexivity.
  - destruct (session_scores st !! session_id data) as [sb|] eqn:Hsb.
    + rewrite (chat_handler_run _ _ _ Hsb), generate_response_run. cbn [snd session_scores].
      by apply session_scores_counted.
    + by rewrite chat_handler_unknown.
  - by rewrite get_scores_run.
  - reflexivity.
Qed.

Lemma serve_cons rq rqs st :
  serve W (rq :: rqs) st =
  (fst (handle W rq st) :: fst (serve W rqs (snd (handle W rq st))),
   snd (serve W rqs (snd (handle W rq st)))).
Proof.
  cbn [serve]. destruct (handle W rq st) as [a st1]. cbn [fst snd].
  destruct (serve W rqs st1) as [answers st2]. reflexivity.
Qed.

Lemma serve_app rqs1 rqs2 st :
  serve W (rqs1 ++ rqs2) st =
  (fst (serve W rqs1 st) ++ fst (serve W rqs2 (snd (serve W rqs1 st))),
   snd (serve W rqs2 (snd (serve W rqs1 st)))).
Proof.
  revert st. induction rqs1 as [|rq rqs1 IH]; intros st.
  - cbn. by destruct (serve W rqs2 st).
  - rewrite <- app_comm_cons, !serve_cons, IH. reflexivity.
Qed.

Lemma session_scores_startup : session_scores (startup W) = ∅.
Proof.
  unfold startup, load_local_scripts, load_script, load_local_product_data,
    mbind, M_bind. cbn.
  destruct (read_products W 0%nat); cbn;
    destruct (read_script W seller); cbn;
    destruct (read_script W buyer); reflexivity.
Qed.

Lemma reachable_startup : reachable W (startup W).
Proof. by exists []. Qed.

Lemma reachable_handle rq st :
  reachable W st -> reachable W (snd (handle W rq st)).
Proof.
  intros [rqs <-]. exists (rqs ++ [rq]).
  rewrite serve_app. cbn [snd]. rewrite serve_cons. reflexivity.
Qed.

Lemma reachable_serve rqs st :
  reachable W st -> reachable W (snd (serve W rqs st)).
Proof.
  intros [rqs0 <-]. exists (rqs0 ++ rqs). by rewrite serve_app.
Qed.

Lemma scoreboards_complete_handle rq st :
  scoreboards_complete st -> scoreboards_complete (snd (handle W rq st)).
Proof.
  intros Hst sid sb. rewrite handle_session_scores.
  destruct rq as [|data|?|]; try apply Hst.
  - destruct (decide (uuid4 W (uuid_draws st) = sid)) as [->|Hne].
    + rewrite lookup_insert_eq. intros [= <-]. apply dom_fresh_scoreboard.
    + rewrite lookup_insert_ne by done. apply Hst.
  - destruct (session_scores st !! session_id data) as [sb0|] eqn:Hsb0; [|apply Hst].
    destruct (decide (session_id data = sid)) as [->|Hne].
    + rewrite lookup_insert_eq. intros [= <-]. rewrite dom_counted. by eapply Hst.
    + rewrite lookup_insert_ne by done. apply Hst.
Qed.

Lemma scoreboards_complete_serve rqs st :
  scoreboards_complete st -> scoreboards_complete (snd (serve W rqs st)).
Proof.
  revert st. induction rqs as [|rq rqs IH]; intros st Hst; [done|].
  rewrite serve_cons. cbn [snd]. by apply IH, scoreboards_complete_handle.
Qed.

Lemma reachable_complete st : reachable W st -> scoreboards_complete st.
Proof.
  intros [rqs <-]. apply scoreboards_complete_serve.
  intros sid sb. by rewrite session_scores_startup, lookup_empty.
Qed.

(** The sessions of the store are the ones [/start] has answered with. *)
Lemma dom_session_scores_handle rq st :
  dom (session_scores (snd (handle W rq st))) =
  dom (session_scores st) ∪ list_to_set (created_ids [fst (handle W rq st)]).
Proof.
  rewrite handle_session_scores.
  destruct rq as [|data|sid|]; cbn [handle].
  - rewrite dom_insert_L. cbn. set_solver.
  - destruct (session_scores st !! session_id data) as [sb|] eqn:Hsb.
    + rewrite (chat_handler_run _ _ _ Hsb). cbn. rewrite dom_insert_L.
      apply elem_of_dom_2 in Hsb. set_solver.
    + rewrite chat_handler_unknown by done. cbn. set_solver.
  - rewrite get_scores_run. destruct (session_scores st !! sid); cbn; set_solver.
  - cbn. set_solver.
Qed.

Lemma created_ids_cons a answers :
  created_ids (a :: answers) = created_ids [a] ++ created_ids answers.
Proof. unfold created_ids. cbn. by destruct a as [[]|]. Qed.

Lemma dom_session_scores_serve rqs st :
  dom (session_scores (snd (serve W rqs st))) =
  dom (session_scores st) ∪ list_to_set (created_ids (fst (serve W rqs st))).
Proof.
  revert st. induction rqs as [|rq rqs IH]; intros st.
  - cbn. set_solver.
  - rewrite serve_cons. cbn [fst snd].
    rewrite IH, dom_session_scores_handle.
    rewrite (created_ids_cons _ (fst (serve W rqs _))), list_to_set_app_L.
    by rewrite (assoc_L (∪)).
Qed.

(** The call a chat request on a known session logs last is the
    reply-generation call, on the transcript extended by the user turn. *)
Lemma chat_handler_last_call data st sb :
  session_scores st !! session_id data = Some sb ->
  last (model_calls (snd (chat_handler W data st))) =
  Some (Transcript (chat_history st ++ [user_turn (composed W data st)]),
        reply_outcome W data st).
Proof.
  intros Hsb. rewrite (chat_handler_run _ _ _ Hsb), generate_response_run.
  cbn [snd model_calls]. apply last_snoc.
Qed.

Lemma chat_handler_history data st sb :
  session_scores st !! session_id data = Some sb ->
  chat_history (snd (chat_handler W data st)) =
  (chat_history st ++ [user_turn (composed W data st)]) ++
  match reply_outcome W data st with
  | Generated reply => [model_turn reply]
  | Failed _ => []
  end.
Proof.
  intros Hsb. by rewrite (chat_handler_run _ _ _ Hsb), generate_response_run.
Qed.

Lemma chat_handler_scores data st sb :
  session_scores st !! session_id data = Some sb ->
  session_scores (snd (chat_handler W data st)) =
  <[session_id data := counted (resolved_stage W data st) sb]> (session_scores st).
Proof.
  intros Hsb. pose proof (handle_session_scores (PostChat data) st) as Hsc.
  cbn [handle] in Hsc. by rewrite Hsb in Hsc.
Qed.

Lemma unusable_general p r st :
  unusable (classification W p r st) = true ->
  fst (detect_conversation_stage W p r st) = Ret "general".
Proof.
  rewrite detect_conversation_stage_run. cbn [fst]. unfold unusable.
  destruct (classification W p r st) as [text|reason]; [|reflexivity].
  intros Hbad%negb_true_iff. by rewrite Hbad.
Qed.

Lemma detect_in_options p r st :
  exists s, fst (detect_conversation_stage W p r st) = Ret s /\ s ∈ stage_options.
Proof.
  rewrite detect_conversation_stage_run. cbn [fst]. eexists. split; [reflexivity|].
  assert ("general" ∈ stage_options) as Hg by (unfold stage_options; set_solver).
  destruct (classification W p r st) as [text|reason]; [|exact Hg].
  by case_bool_decide.
Qed.

(** *** The transcript *)

Lemma chat_history_handle rq st :
  chat_history (snd (handle W rq st)) = chat_history st ++ turns_of W rq st.
Proof.
  destruct rq as [|data|sid|]; cbn [handle turns_of]; rewrite ?app_nil_r; try done.
  - destruct (session_scores st !! session_id data) as [sb|] eqn:Hsb.
    + rewrite bool_decide_eq_true_2 by (apply elem_of_dom; eauto).
      rewrite (chat_handler_history _ _ _ Hsb), <- app_assoc. reflexivity.
    + rewrite bool_decide_eq_false_2 by (by rewrite not_elem_of_dom).
      by rewrite chat_handler_unknown, app_nil_r.
  - by rewrite get_scores_run.
Qed.

Lemma chat_history_serve rqs st :
  chat_history (snd (serve W rqs st)) = chat_history st ++ transcript_of W rqs st.
Proof.
  revert st. induction rqs as [|rq rqs IH]; intros st.
  - cbn. by rewrite app_nil_r.
  - rewrite serve_cons. cbn [snd transcript_of].
    by rewrite IH, chat_history_handle, app_assoc.
Qed.

(** *** The claims *)

(** C1. Whatever the state, the identifier [/start] answers with can be
    queried at once: [/scores] answers 200 with a scoreboard that maps each
    of the seven labels to zero and has no other key. *)
Theorem C1_start_then_scores st :
  let sid := uuid4 W (uuid_draws st) in
  let st1 := snd (start_session W st) in
  fst (start_session W st) = Ret (StartBody sid) /\
  get_scores sid st1 = (Ret (ScoresBody sid fresh_scoreboard), st1) /\
  http_status (fst (get_scores sid st1)) = 200 /\
  dom fresh_scoreboard = stage_set /\
  forall l, fresh_scoreboard !! l =
            if bool_decide (l ∈ stage_options) then Some 0 else None.
Proof.
  cbn zeta. split; [reflexivity|].
  assert (get_scores (uuid4 W (uuid_draws st)) (snd (start_session W st)) =
          (Ret (ScoresBody (uuid4 W (uuid_draws st)) fresh_scoreboard),
           snd (start_session W st))) as Hq.
  { rewrite get_scores_run. cbn [start_session snd session_scores set_session_scores].
    by rewrite lookup_insert_eq. }
  split; [exact Hq|]. split; [by rewrite Hq|].
  split; [apply dom_fresh_scoreboard|apply fresh_scoreboard_lookup].
Qed.

(** C2. In a reachable state, [N] chat requests in a row for one existing
    session, all naming the same label [s] of the seven, are all answered
    200 and leave the counter of [s] at its former value plus [N] and every
    other counter of the session where it was. *)
Theorem C2_fixed_stage_counts st sid s sb turns :
  reachable W st ->
  session_scores st !! sid = Some sb ->
  s ∈ stage_options ->
  let run := serve W (chat_requests sid s turns) st in
  exists n sb',
    sb !! s = Some n /\
    session_scores (snd run) !! sid = Some sb' /\
    sb' !! s = Some (n + Z.of_nat (length turns)) /\
    (forall l, l ≠ s -> sb' !! l = sb !! l) /\
    Forall (fun a => http_status a = 200) (fst run).
Proof.
  intros Hreach Hsb Hs run.
  assert (s ≠ "auto") as Hauto.
  { intros ->. unfold stage_options in Hs. set_unfold. naive_solver. }
  assert (exists n, sb !! s = Some n) as [n Hn].
  { apply (elem_of_dom (D := gset string)).
    rewrite (reachable_complete _ Hreach _ _ Hsb). unfold stage_set.
    by apply elem_of_list_to_set. }
  exists n. unfold run. clear run Hreach.
  revert st sb n Hsb Hn.
  induction turns as [|[p r] turns IH]; intros st sb n Hsb Hn.
  - exists sb. cbn. rewrite Z.add_0_r. repeat split; done.
  - unfold chat_requests. rewrite fmap_cons, serve_cons.
    set (data := {| prompt := p; chat_role := r; session_id := sid; stage := s |}).
    cbn [handle fst snd].
    assert (resolved_stage W data st = s) as Hres.
    { unfold resolved_stage. cbn [stage data]. by rewrite bool_decide_eq_false_2. }
    pose proof (chat_handler_run data st sb Hsb) as Hrun.
    pose proof (handle_session_scores (PostChat data) st) as Hsc.
    cbn [handle session_id data] in Hsc. rewrite Hsb, Hres in Hsc.
    assert (counted s sb = <[s := n + 1]> sb) as Hcnt by (unfold counted; by rewrite Hn).
    rewrite Hcnt in Hsc.
    destruct (IH (snd (chat_handler W data st)) (<[s := n + 1]> sb) (n + 1))
      as (sb' & Hn' & Hsb' & Hs' & Hother & Hok).
    { by rewrite Hsc, lookup_insert_eq. }
    { by rewrite lookup_insert_eq. }
    exists sb'. split; [done|]. split; [exact Hsb'|]. split; [|split].
    + rewrite Hs'. f_equal. cbn [length]. lia.
    + intros l Hl. rewrite Hother by done. by rewrite lookup_insert_ne.
    + constructor; [|exact Hok].
      change (http_status (fst (chat_handler W data st)) = 200). by rewrite Hrun.
Qed.

(** C3. In the state reached by any run of requests from start-up, an
    identifier that [/start] has not answered with is refused: [/scores]
    raises the 400 "Invalid session ID" error, and [/chat] raises the same
    error and leaves the whole state as it was, so no generation call is
    made, no turn is appended and no counter moves. *)
Theorem C3_unknown_session_refused rqs sid data :
  sid ∉ created_ids (fst (serve W rqs (startup W))) ->
  session_id data = sid ->
  let st := snd (serve W rqs (startup W)) in
  get_scores sid st = (Raise invalid_session, st) /\
  http_status (fst (get_scores sid st)) = 400 /\
  chat_handler W data st = (Raise invalid_session, st) /\
  http_status (fst (chat_handler W data st)) = 400 /\
  model_calls (snd (chat_handler W data st)) = model_calls st /\
  chat_history (snd (chat_handler W data st)) = chat_history st /\
  session_scores (snd (chat_handler W data st)) = session_scores st.
Proof.
  intros Hnew Hsid st.
  assert (session_scores st !! sid = None) as Hno.
  { apply not_elem_of_dom. unfold st.
    rewrite dom_session_scores_serve, session_scores_startup, dom_empty_L.
    set_solver. }
  assert (get_scores sid st = (Raise invalid_session, st)) as Hq
    by (by rewrite get_scores_run, Hno).
  assert (chat_handler W data st = (Raise invalid_session, st)) as Hc
    by (apply chat_handler_unknown; by rewrite Hsid).
  rewrite Hq, Hc. repeat split.
Qed.

(** C4. The classifier answers "general" whenever its call fails or the
    trimmed, lower-cased text is none of the seven labels, and it never
    raises.  So a chat request with stage "auto" on an existing session of a
    reachable state is answered 200 whatever the classification call does;
    and when the classification is unusable, the counter that moves is the
    one of "general", by one, all others staying. *)
Theorem C4_classifier_falls_back data st sb :
  reachable W st ->
  session_scores st !! session_id data = Some sb ->
  stage data = "auto" ->
  let o := classification W (prompt data) (chat_role data) st in
  let answer := fst (chat_handler W data st) in
  let st' := snd (chat_handler W data st) in
  (forall p r st0,
     unusable (classification W p r st0) = true ->
     fst (detect_conversation_stage W p r st0) = Ret "general") /\
  (forall p r st0,
     exists s, fst (detect_conversation_stage W p r st0) = Ret s /\ s ∈ stage_options) /\
  http_status answer = 200 /\
  (exists response sb',
     answer = Ret (ChatBody (session_id data) response sb') /\
     session_scores st' !! session_id data = Some sb' /\
     (unusable o = true ->
      exists n, sb !! "general" = Some n /\
                sb' !! "general" = Some (n + 1) /\
                forall l, l ≠ "general" -> sb' !! l = sb !! l)).
Proof.
  intros Hreach Hsb Hauto o answer st'.
  split; [apply unusable_general|]. split; [apply detect_in_options|].
  unfold answer, st'. rewrite (chat_handler_scores _ _ _ Hsb).
  rewrite (chat_handler_run _ _ _ Hsb). cbn [fst]. split; [reflexivity|].
  eexists _, _. split; [reflexivity|]. split; [by rewrite lookup_insert_eq|].
  intros Hbad.
  assert (resolved_stage W data st = "general") as ->.
  { unfold resolved_stage. rewrite bool_decide_eq_true_2 by done.
    by rewrite unusable_general. }
  assert (exists n, sb !! "general" = Some n) as [n Hn].
  { apply (elem_of_dom (D := gset string)).
    rewrite (reachable_complete _ Hreach _ _ Hsb). unfold stage_set, stage_options.
    set_solver. }
  exists n. split; [exact Hn|].
  split; [by rewrite counted_lookup, decide_True, Hn|].
  intros l Hl. by rewrite counted_lookup, decide_False.
Qed.

(** C5. In the state reached by any run of requests from start-up, every
    scoreboard of the store has exactly the seven labels as keys, and so has
    every scoreboard sent in an answer of [/chat] or [/scores] along the
    run. *)
Theorem C5_seven_keys_always rqs :
  let answers := fst (serve W rqs (startup W)) in
  let st := snd (serve W rqs (startup W)) in
  (forall sid sb, session_scores st !! sid = Some sb ->
     dom sb = stage_set /\ forall l, is_Some (sb !! l) <-> l ∈ stage_options) /\
  (forall a, a ∈ answers ->
     match a with
     | Ret (ChatBody _ _ scores) | Ret (ScoresBody _ scores) => dom scores = stage_set
     | _ => True
     end).
Proof.
  cbn zeta. split.
  - intros sid sb Hsb.
    assert (dom sb = stage_set) as Hdom.
    { eapply (scoreboards_complete_serve rqs (startup W)); [|exact Hsb].
      intros ? ?. by rewrite session_scores_startup, lookup_empty. }
    split; [exact Hdom|]. intros l.
    rewrite <- elem_of_dom, Hdom. unfold stage_set. by rewrite elem_of_list_to_set.
  - assert (forall st, scoreboards_complete st ->
              forall a, a ∈ fst (serve W rqs st) ->
              match a with
              | Ret (ChatBody _ _ scores) | Ret (ScoresBody _ scores) =>
                  dom scores = stage_set
              | _ => True
              end) as Hall.
    { induction rqs as [|rq rqs IH]; intros st Hst a Ha.
      - cbn in Ha. by apply elem_of_nil in Ha.
      - rewrite serve_cons in Ha. cbn [fst] in Ha.
        apply elem_of_cons in Ha as [->|Ha].
        + destruct rq as [|data|sid|]; cbn [handle].
          * exact I.
          * destruct (session_scores st !! session_id data) as [sb|] eqn:Hsb.
            -- rewrite (chat_handler_run _ _ _ Hsb). cbn [fst].
               rewrite dom_counted. by eapply Hst.
            -- by rewrite chat_handler_unknown.
          * rewrite get_scores_run. cbn [fst].
            destruct (session_scores st !! sid) as [sb|] eqn:Hsb; [|exact I].
            by eapply Hst.
          * exact I.
        + eapply IH; [|exact Ha]. by apply scoreboards_complete_handle. }
    apply Hall. intros ? ?. by rewrite session_scores_startup, lookup_empty.
Qed.

(** C6. When the reply-generation call of a chat request on an existing
    session fails with some reason, the request is still answered 200, and
    the [response] field of the body is the error marker followed by that
    reason. *)
Theorem C6_generation_failure_in_body data st sb reason :
  session_scores st !! session_id data = Some sb ->
  reply_outcome W data st = Failed reason ->
  let answer := fst (chat_handler W data st) in
  let st' := snd (chat_handler W data st) in
  last (model_calls st') =
    Some (Transcript (chat_history st ++ [user_turn (composed W data st)]),
          Failed reason) /\
  http_status answer = 200 /\
  exists scores,
    answer = Ret (ChatBody (session_id data)
                    (cross_mark +:+ " Response error: " +:+ reason) scores).
Proof.
  intros Hsb Hfail answer st'. unfold answer, st'.
  rewrite (chat_handler_last_call _ _ _ Hsb), Hfail.
  rewrite (chat_handler_run _ _ _ Hsb), Hfail. cbn [fst].
  split; [reflexivity|]. split; [reflexivity|]. by eexists.
Qed.

(** C7. There is one transcript in the state, whatever the session.  A
    chat turn of any session appends to it a user turn, whose text is the
    composed block followed by the literal prompt, and then a model turn
    with the reply the generation call gave: the transcript grows by
    exactly these two turns, and the reply is what the caller is answered.
    The generation call is given the whole transcript so far, all turns of
    all sessions in the order they were appended, ending with that user
    turn.  Whatever requests follow, of whatever sessions, the transcript
    is then the one so far followed by the turns of those requests in the
    order they are served.  (When the call gives no reply, the user turn
    is all that is appended.) *)
Theorem C7_one_shared_transcript data st sb rqs :
  session_scores st !! session_id data = Some sb ->
  let st' := snd (chat_handler W data st) in
  let text := composed W data st in
  let o := reply_outcome W data st in
  (exists block,
     text = block +:+ "User: " +:+ prompt data +:+ nl +:+ "Respond naturally.") /\
  last (model_calls st') =
    Some (Transcript (chat_history st ++ [user_turn text]), o) /\
  (forall reply,
     o = Generated reply ->
     chat_history st' = chat_history st ++ [user_turn text; model_turn reply]) /\
  chat_history st' =
    chat_history st ++ user_turn text ::
      match o with Generated reply => [model_turn reply] | Failed _ => [] end /\
  (forall reply,
     o = Generated reply ->
     exists scores,
       fst (chat_handler W data st) = Ret (ChatBody (session_id data) reply scores)) /\
  chat_history (snd (serve W rqs st')) = chat_history st' ++ transcript_of W rqs st'.
Proof.
  intros Hsb st' text o. unfold st', text, o.
  split; [|split; [|split; [|split; [|split]]]].
  - unfold composed, full_prompt. eexists.
    rewrite <- !append_assoc. reflexivity.
  - exact (chat_handler_last_call _ _ _ Hsb).
  - intros reply Ho.
    rewrite (chat_handler_history _ _ _ Hsb), Ho, <- app_assoc. reflexivity.
  - rewrite (chat_handler_history _ _ _ Hsb), <- app_assoc. reflexivity.
  - intros reply Ho. rewrite (chat_handler_run _ _ _ Hsb), Ho. by eexists.
  - apply chat_history_serve.
Qed.

(** C8. The text [generate_response] puts in the user turn, which is the
    last turn of the transcript given to the generation call, is made of:
    the line naming the role and the resolved stage; the catalog part,
    which renders the first five entries at most, each by its name, price
    and description (or the stand-ins "Unknown", "N/A" and the empty
    string), or says "No product data." when the catalog is empty; the
    script part, which lists the lines of the role's script when there are
    any and is empty otherwise; and the prompt. *)
Theorem C8_composed_block data st :
  let st' := snd (generate_response W (prompt data) (stage data) (chat_role data)
                    (session_id data) st) in
  let r := chat_role data in
  let s := resolved_stage W data st in
  let catalog := catalog_in_use W st in
  let script := role_scripts st r in
  let shown := take 5 catalog in
  let text := composed W data st in
  (exists o,
     last (model_calls st') =
     Some (Transcript (chat_history st ++ [user_turn text]), o)) /\
  text =
    ("You are a " +:+ role_name r +:+ ". You are in the " +:+ s +:+
     " stage of the role-play.") +:+ nl +:+ nl +:+ "Products:" +:+ nl +:+
    products_text catalog +:+ script_section script +:+ nl +:+ nl +:+
    "User: " +:+ prompt data +:+ nl +:+ "Respond naturally." /\
  contains text (role_name r) /\
  contains text s /\
  (length shown <= 5)%nat /\
  shown `prefix_of` catalog /\
  products_text catalog =
    match catalog with
    | [] => "No product data."
    | _ => join (nl +:+ nl) (product_line <$> shown)
    end /\
  (forall p, p ∈ shown ->
     contains text (product_line p) /\
     product_line p =
       "- " +:+ default "Unknown" (p !! "name") +:+
       " ($" +:+ default "N/A" (p !! "price") +:+ ")" +:+ nl +:+
       "  " +:+ default "" (p !! "description")) /\
  (script ≠ [] ->
     contains text ("Script:" +:+ nl +:+ join nl script) /\
     forall line, line ∈ script -> contains text line) /\
  (script = [] -> script_section script = "").
Proof.
  cbn zeta. rewrite generate_response_run. cbn [snd model_calls].
  split; [eexists; apply last_snoc|].
  split; [reflexivity|].
  split; [apply contains_app_l, context_line_role|].
  split; [eapply contains_trans;
          [apply contains_app_l, context_line_stage
          |apply contains_app_r, contains_app_l, contains_refl]|].
  split; [rewrite length_take; lia|].
  split; [apply prefix_take|].
  split; [apply products_text_cases|].
  assert (forall t, contains (products_text (catalog_in_use W st)) t ->
                    contains (composed W data st) t) as Hprod.
  { intros t Ht. unfold composed, full_prompt.
    do 5 apply contains_app_r. by apply contains_app_l. }
  assert (forall t, contains (script_section (role_scripts st (chat_role data))) t ->
                    contains (composed W data st) t) as Hscr.
  { intros t Ht. unfold composed, full_prompt.
    do 6 apply contains_app_r. by apply contains_app_l. }
  split; [|split].
  - intros p Hp. split; [|reflexivity].
    apply Hprod. rewrite products_text_cases.
    destruct (catalog_in_use W st) as [|p0 c] eqn:Hc.
    + rewrite take_nil in Hp. by apply elem_of_nil in Hp.
    + by apply contains_join, list_elem_of_fmap_2.
  - intros Hne.
    destruct (role_scripts st (chat_role data)) as [|line0 lines] eqn:Hs; [done|].
    assert (contains (script_section (line0 :: lines))
              ("Script:" +:+ nl +:+ join nl (line0 :: lines))) as Hsec.
    { unfold script_section. do 2 apply contains_app_r. apply contains_refl. }
    split; [by apply Hscr|].
    intros line Hline. apply Hscr. eapply contains_trans; [exact Hsec|].
    do 2 apply contains_app_r. by apply contains_join.
  - by intros ->.
Qed.

(** C9. A chat request on an existing session of a reachable state whose
    stage is neither "auto" nor one of the seven labels is answered 200;
    the store of scoreboards is left exactly as it was, and the stage
    string stands as given in the text of the user turn. *)
Theorem C9_unknown_stage_counts_nowhere data st sb :
  reachable W st ->
  session_scores st !! session_id data = Some sb ->
  stage data ≠ "auto" ->
  stage data ∉ stage_options ->
  let answer := fst (chat_handler W data st) in
  let st' := snd (chat_handler W data st) in
  http_status answer = 200 /\
  (exists response, answer = Ret (ChatBody (session_id data) response sb)) /\
  session_scores st' = session_scores st /\
  composed W data st =
    full_prompt (prompt data) (stage data) (chat_role data)
      (catalog_in_use W st) (role_scripts st (chat_role data)) /\
  contains (composed W data st)
    ("You are in the " +:+ stage data +:+ " stage of the role-play.") /\
  user_turn (composed W data st) ∈ chat_history st'.
Proof.
  intros Hreach Hsb Hauto Hbad answer st'. unfold answer, st'.
  assert (resolved_stage W data st = stage data) as Hres.
  { unfold resolved_stage. by rewrite bool_decide_eq_false_2. }
  assert (counted (stage data) sb = sb) as Hcnt.
  { unfold counted. destruct (sb !! stage data) as [n|] eqn:Hn; [|reflexivity].
    exfalso. apply Hbad. apply elem_of_dom_2 in Hn.
    rewrite (reachable_complete _ Hreach _ _ Hsb) in Hn.
    by apply elem_of_list_to_set in Hn. }
  rewrite (chat_handler_scores _ _ _ Hsb), (chat_handler_history _ _ _ Hsb).
  rewrite (chat_handler_run _ _ _ Hsb). cbn [fst]. rewrite Hres, Hcnt.
  split; [reflexivity|]. split; [by eexists|]. split; [by apply insert_id|].
  split; [unfold composed; by rewrite Hres|]. split.
  - unfold composed, full_prompt. rewrite Hres.
    apply contains_app_l, context_line_stage.
  - rewrite !elem_of_app, list_elem_of_singleton. by left; right.
Qed.

(** C10. When the reply-generation call of a chat request on an existing
    session of a reachable state fails, what was done before stays done:
    the session's scoreboard is the one counted under the resolved stage
    (its counter one higher when the stage is one of the seven), the
    transcript has grown by the user turn and by nothing else, and the
    failed call is on the log. *)
Theorem C10_no_rollback_on_failure data st sb reason :
  reachable W st ->
  session_scores st !! session_id data = Some sb ->
  reply_outcome W data st = Failed reason ->
  let s := resolved_stage W data st in
  let st' := snd (chat_handler W data st) in
  chat_history st' = chat_history st ++ [user_turn (composed W data st)] /\
  (forall reply, model_turn reply ∉ drop (length (chat_history st)) (chat_history st')) /\
  last (model_calls st') =
    Some (Transcript (chat_history st ++ [user_turn (composed W data st)]),
          Failed reason) /\
  session_scores st' !! session_id data = Some (counted s sb) /\
  (s ∈ stage_options ->
   exists n, sb !! s = Some n /\ counted s sb !! s = Some (n + 1)).
Proof.
  intros Hreach Hsb Hfail s st'. unfold st'.
  rewrite (chat_handler_history _ _ _ Hsb), (chat_handler_last_call _ _ _ Hsb),
    (chat_handler_scores _ _ _ Hsb), Hfail, app_nil_r, lookup_insert_eq.
  split; [reflexivity|]. split; [|split; [reflexivity|split; [reflexivity|]]].
  - intros reply. rewrite drop_app_length. by intros [=]%list_elem_of_singleton.
  - intros Hs.
    assert (exists n, sb !! s = Some n) as [n Hn].
    { apply (elem_of_dom (D := gset string)).
      rewrite (reachable_complete _ Hreach _ _ Hsb). unfold stage_set.
      by apply elem_of_list_to_set. }
    exists n. split; [exact Hn|]. by rewrite counted_lookup, decide_True, Hn.
Qed.

End Properties.

(** ** The claims at work *)

(** The scenario of the specification: a session is created, one turn is
    fixed on "opening", the scores are read. *)
Example scenario_opening :
  fst (serve helpful_world [GetStart; PostChat (hello "opening"); GetScores "s0"]
         (startup helpful_world)) =
  [Ret (StartBody "s0");
   Ret (ChatBody "s0" "Deal." (<["opening" := 1]> fresh_scoreboard));
   Ret (ScoresBody "s0" (<["opening" := 1]> fresh_scoreboard))].
Proof. vm_compute. reflexivity. Qed.

(** A classification padded with U+00A0 and U+2028 and written in capitals
    counts under "closing". *)
Example scenario_padded_answer :
  fst (serve padded_world [GetStart; PostChat (hello "auto")] (startup padded_world)) =
  [Ret (StartBody "s0");
   Ret (ChatBody "s0" "Deal." (<["closing" := 1]> fresh_scoreboard))].
Proof. vm_compute. reflexivity. Qed.

(** An unknown session is refused with status 400. *)
Example scenario_unknown_session :
  http_status (fst (chat_handler helpful_world (hello "opening")
                      (startup helpful_world))) = 400.
Proof. vm_compute. reflexivity. Qed.

(** Two turns fixed on "closing": the counter goes from 0 to 2. *)
Lemma C2_witness :
  exists n sb',
    fresh_scoreboard !! "closing" = Some n /\
    session_scores
      (snd (serve helpful_world
              (chat_requests "s0" "closing" [("Hi", seller); ("Deal?", seller)])
              (one_session helpful_world))) !! "s0" = Some sb' /\
    sb' !! "closing" = Some (n + 2) /\
    (forall l, l ≠ "closing" -> sb' !! l = fresh_scoreboard !! l) /\
    Forall (fun a => http_status a = 200)
      (fst (serve helpful_world
              (chat_requests "s0" "closing" [("Hi", seller); ("Deal?", seller)])
              (one_session helpful_world))).
Proof.
  apply (C2_fixed_stage_counts helpful_world (one_session helpful_world)
           "s0" "closing" fresh_scoreboard [("Hi", seller); ("Deal?", seller)]).
  - exists [GetStart]. reflexivity.
  - vm_compute. reflexivity.
  - unfold stage_options. repeat constructor.
Defined.

(** After one [/start], which answered "s0", the identifier "zz" is refused
    by both endpoints. *)
Lemma C3_witness :
  get_scores "zz" (one_session helpful_world) =
    (Raise invalid_session, one_session helpful_world) /\
  chat_handler helpful_world
    {| prompt := "Hi"; chat_role := buyer; session_id := "zz"; stage := "auto" |}
    (one_session helpful_world) =
    (Raise invalid_session, one_session helpful_world).
Proof.
  pose proof (C3_unknown_session_refused helpful_world [GetStart] "zz"
    {| prompt := "Hi"; chat_role := buyer; session_id := "zz"; stage := "auto" |})
    as Hc3.
  destruct Hc3 as (Hq & _ & Hc & _).
  - vm_compute. intros Hin. apply list_elem_of_singleton in Hin. discriminate Hin.
  - reflexivity.
  - split; [exact Hq|exact Hc].
Defined.

(** With a service that fails every call, an "auto" turn is answered 200 and
    counted under "general". *)
Lemma C4_witness :
  http_status (fst (chat_handler failing_world (hello "auto")
                      (one_session failing_world))) = 200 /\
  exists sb',
    session_scores (snd (chat_handler failing_world (hello "auto")
                           (one_session failing_world))) !! "s0" = Some sb' /\
    sb' !! "general" = Some 1.
Proof.
  pose proof (C4_classifier_falls_back failing_world (hello "auto")
                (one_session failing_world) fresh_scoreboard) as Hc4.
  destruct Hc4 as (_ & _ & Hok & response & sb' & _ & Hsb' & Hgen).
  - exists [GetStart]. reflexivity.
  - vm_compute. reflexivity.
  - reflexivity.
  - split; [exact Hok|]. exists sb'. split; [exact Hsb'|].
    destruct Hgen as (n & Hn & Hn' & _); [reflexivity|].
    rewrite Hn'. vm_compute in Hn. injection Hn as <-. reflexivity.
Defined.

(** The failure reason reaches the caller inside a 200 answer. *)
Lemma C6_witness :
  http_status (fst (chat_handler failing_world (hello "opening")
                      (one_session failing_world))) = 200 /\
  exists scores,
    fst (chat_handler failing_world (hello "opening") (one_session failing_world)) =
    Ret (ChatBody "s0" (cross_mark +:+ " Response error: quota exceeded") scores).
Proof.
  pose proof (C6_generation_failure_in_body failing_world (hello "opening")
                (one_session failing_world) fresh_scoreboard "quota exceeded") as Hc6.
  destruct Hc6 as (_ & Hok & Hbody).
  - vm_compute. reflexivity.
  - reflexivity.
  - split; [exact Hok|exact Hbody].
Defined.

(** The first turn of session "s1" is sent the two turns of session "s0"
    ahead of its own, and the transcript ends with its two turns. *)
Lemma C7_witness :
  exists text0 text1 o,
    chat_history two_sessions = [user_turn text0; model_turn "Deal."] /\
    last (model_calls (snd (chat_handler helpful_world hello_s1 two_sessions))) =
      Some (Transcript [user_turn text0; model_turn "Deal."; user_turn text1], o) /\
    chat_history (snd (chat_handler helpful_world hello_s1 two_sessions)) =
      chat_history two_sessions ++ [user_turn text1; model_turn "Deal."].
Proof.
  pose proof (C7_one_shared_transcript helpful_world hello_s1 two_sessions
                fresh_scoreboard []) as Hc7.
  destruct Hc7 as (_ & Hlast & Hboth & _).
  - vm_compute. reflexivity.
  - eexists _, _, _. split; [|split; [exact Hlast|]].
    + vm_compute. reflexivity.
    + apply Hboth. reflexivity.
Defined.

(** A stage nobody knows: answered 200, every counter still at zero. *)
Lemma C9_witness :
  http_status (fst (chat_handler helpful_world (hello "haggling")
                      (one_session helpful_world))) = 200 /\
  session_scores (snd (chat_handler helpful_world (hello "haggling")
                         (one_session helpful_world))) =
  session_scores (one_session helpful_world).
Proof.
  pose proof (C9_unknown_stage_counts_nowhere helpful_world (hello "haggling")
                (one_session helpful_world) fresh_scoreboard) as Hc9.
  destruct Hc9 as (Hok & _ & Hsame & _).
  - exists [GetStart]. reflexivity.
  - vm_compute. reflexivity.
  - discriminate.
  - vm_compute. intros Hin.
    repeat (apply elem_of_cons in Hin as [Hin|Hin]; [discriminate Hin|]).
    by apply elem_of_nil in Hin.
  - split; [exact Hok|exact Hsame].
Defined.

(** The generation call fails; the turn is counted and the user turn kept. *)
Lemma C10_witness :
  length (chat_history (snd (chat_handler failing_world (hello "closing")
                               (one_session failing_world)))) = 1%nat /\
  session_scores (snd (chat_handler failing_world (hello "closing")
                         (one_session failing_world))) !! "s0" =
  Some (<["closing" := 1]> fresh_scoreboard).
Proof.
  pose proof (C10_no_rollback_on_failure failing_world (hello "closing")
                (one_session failing_world) fresh_scoreboard "quota exceeded") as Hc10.
  destruct Hc10 as (Hhist & _ & _ & Hsc & _).
  - exists [GetStart]. reflexivity.
  - vm_compute. reflexivity.
  - reflexivity.
  - split; [rewrite Hhist; reflexivity|].
    etrans; [exact Hsc|]. vm_compute. reflexivity.
Defined.

(** ** Further properties of the program *)

Section Further.

Context (W : World).

(** A property every request keeps is kept by every run. *)
Lemma serve_invariant (P : state -> Prop) :
  (forall rq st, P st -> P (snd (handle W rq st))) ->
  forall rqs st, P st -> P (snd (serve W rqs st)).
Proof.
  intros Hstep rqs. induction rqs as [|rq rqs IH]; intros st Hst; [exact Hst|].
  rewrite serve_cons. cbn [snd]. by apply IH, Hstep.
Qed.

Lemma startup_quiet :
  chat_history (startup W) = [] /\ model_calls (startup W) = [].
Proof.
  unfold startup, load_local_scripts, load_script, load_local_product_data,
    mbind, M_bind. cbn.
  destruct (read_products W 0%nat); cbn;
    destruct (read_script W seller); cbn;
    destruct (read_script W buyer); by split.
Qed.

(** The state a chat request on a known session leaves, field by field. *)
Lemma chat_handler_state data st sb :
  session_scores st !! session_id data = Some sb ->
  let h := chat_history st ++ [user_turn (composed W data st)] in
  let o := reply_outcome W data st in
  snd (chat_handler W data st) =
  {| chat_history := h ++ match o with Generated reply => [model_turn reply] | Failed _ => [] end;
     product_data := catalog_in_use W st;
     role_scripts := role_scripts st;
     session_scores :=
       <[session_id data := counted (resolved_stage W data st) sb]> (session_scores st);
     model_calls := calls_before_reply W data st ++ [(Transcript h, o)];
     uuid_draws := uuid_draws st;
     catalog_reads := match product_data st with
                      | [] => S (catalog_reads st) | _ => catalog_reads st end |}.
Proof.
  intros Hsb h o. rewrite (chat_handler_run W _ _ _ Hsb), generate_response_run.
  cbn [snd]. by erewrite session_scores_counted.
Qed.

Lemma known_session sid st :
  bool_decide (sid ∈ dom (session_scores st)) = true ->
  exists sb, session_scores st !! sid = Some sb.
Proof. intros Hin%bool_decide_eq_true. by apply elem_of_dom in Hin. Qed.

Lemma unknown_session sid st :
  bool_decide (sid ∈ dom (session_scores st)) = false ->
  session_scores st !! sid = None.
Proof. intros Hin%bool_decide_eq_false. by apply not_elem_of_dom. Qed.

(** X1. With a catalog that is an array of records, as [product_data] is
    typed here, a request is answered normally or refused with the 400 of
    an unknown session, whatever the rest of the state: [/start] and [/]
    are always answered, [/chat] and [/scores] exactly when the session is
    in the store.  A failure of either call of the service is caught, and
    the session read again for the answer is still in the store, so
    neither reaches the caller.  The rendering of the catalog stands
    outside the [try]: a product file that holds anything but an array of
    records is not covered by this statement. *)
Theorem X1_answered_or_refused rq st :
  let known sid := bool_decide (sid ∈ dom (session_scores st)) in
  let answered :=
    match rq with
    | PostChat data => known (session_id data)
    | GetScores sid => known sid
    | GetStart | GetRoot => true
    end in
  (if answered
   then exists b, fst (handle W rq st) = Ret b
   else handle W rq st = (Raise invalid_session, st)) /\
  http_status (fst (handle W rq st)) = if answered then 200 else 400.
Proof.
  cbn zeta. destruct rq as [|data|sid|]; cbn [handle].
  - split; [by eexists|reflexivity].
  - destruct (bool_decide (session_id data ∈ dom (session_scores st))) eqn:Hk.
    + apply known_session in Hk as [sb Hsb].
      rewrite (chat_handler_run W _ _ _ Hsb). split; [by eexists|reflexivity].
    + apply unknown_session in Hk. by rewrite chat_handler_unknown.
  - rewrite get_scores_run.
    destruct (bool_decide (sid ∈ dom (session_scores st))) eqn:Hk.
    + apply known_session in Hk as [sb Hsb]. rewrite Hsb.
      split; [by eexists|reflexivity].
    + apply unknown_session in Hk. by rewrite Hk.
  - split; [by eexists|reflexivity].
Qed.

Lemma dom_session_scores_grows rqs st :
  dom (session_scores st) ⊆ dom (session_scores (snd (serve W rqs st))).
Proof. rewrite dom_session_scores_serve. apply union_subseteq_l. Qed.

(** X2. There is no way to lose a session: one that is in the store is
    still there after any run of requests, so [/scores] and [/chat] on it
    keep being answered 200. *)
Theorem X2_sessions_persist sid st rqs data :
  sid ∈ dom (session_scores st) ->
  session_id data = sid ->
  let st' := snd (serve W rqs st) in
  sid ∈ dom (session_scores st') /\
  http_status (fst (get_scores sid st')) = 200 /\
  http_status (fst (chat_handler W data st')) = 200.
Proof.
  intros Hin Hsid st'.
  assert (sid ∈ dom (session_scores st')) as Hin'
    by (by apply dom_session_scores_grows).
  split; [exact Hin'|].
  apply elem_of_dom in Hin' as [sb Hsb]. split.
  - by rewrite get_scores_run, Hsb.
  - rewrite <- Hsid in Hsb. by rewrite (chat_handler_run W _ _ _ Hsb).
Qed.

(** *** Scoreboards *)

Lemma handle_leaves_alone sid rq st :
  leaves_alone sid rq = true ->
  session_scores (snd (handle W rq st)) !! sid = session_scores st !! sid.
Proof.
  intros Hrq. rewrite handle_session_scores.
  destruct rq as [|data|?|]; try done.
  destruct (session_scores st !! session_id data) as [sb|]; [|done].
  cbn in Hrq. apply negb_true_iff, bool_decide_eq_false in Hrq.
  by rewrite lookup_insert_ne.
Qed.

(** X3. The counters are kept per session: a run of requests that holds no
    [/start] and no chat of session [sid] leaves the scoreboard of [sid]
    exactly as it was, whatever the other sessions do. *)
Theorem X3_sessions_do_not_interfere sid rqs st :
  forallb (leaves_alone sid) rqs = true ->
  session_scores (snd (serve W rqs st)) !! sid = session_scores st !! sid.
Proof.
  revert st. induction rqs as [|rq rqs IH]; intros st Hall; [done|].
  cbn [forallb] in Hall. apply andb_true_iff in Hall as [Hrq Hall].
  rewrite serve_cons. cbn [snd]. rewrite IH by done.
  by apply handle_leaves_alone.
Qed.

Lemma handle_counters_grow rq st sid sb l n :
  is_start rq = false ->
  session_scores st !! sid = Some sb ->
  sb !! l = Some n ->
  exists sb' n',
    session_scores (snd (handle W rq st)) !! sid = Some sb' /\
    sb' !! l = Some n' /\ n <= n'.
Proof.
  intros Hrq Hsb Hn. rewrite handle_session_scores.
  destruct rq as [|data|?|]; [done| |by exists sb, n|by exists sb, n].
  destruct (session_scores st !! session_id data) as [sb0|] eqn:Hsb0;
    [|by exists sb, n].
  destruct (decide (session_id data = sid)) as [Heq|Hne].
  - rewrite Heq in Hsb0. rewrite Heq, lookup_insert_eq.
    assert (sb0 = sb) as -> by congruence.
    destruct (decide (l = resolved_stage W data st)) as [Hl|Hl].
    + exists (counted (resolved_stage W data st) sb), (n + 1).
      split; [reflexivity|]. rewrite counted_lookup, decide_True, Hn by done.
      split; [reflexivity|lia].
    + exists (counted (resolved_stage W data st) sb), n.
      split; [reflexivity|]. rewrite counted_lookup, decide_False, Hn by done.
      split; [reflexivity|lia].
  - rewrite lookup_insert_ne by done. by exists sb, n.
Qed.

(** X4. Counts never go down: over a run that holds no [/start], every
    counter of every session ends at least as high as it began, and the
    session and the counter are still there. *)
Theorem X4_counters_never_decrease rqs st sid sb l n :
  forallb (fun rq => negb (is_start rq)) rqs = true ->
  session_scores st !! sid = Some sb ->
  sb !! l = Some n ->
  exists sb' n',
    session_scores (snd (serve W rqs st)) !! sid = Some sb' /\
    sb' !! l = Some n' /\ n <= n'.
Proof.
  revert st sb n. induction rqs as [|rq rqs IH]; intros st sb n Hall Hsb Hn.
  - exists sb, n. by repeat split.
  - cbn [forallb] in Hall. apply andb_true_iff in Hall as [Hrq%negb_true_iff Hall].
    destruct (handle_counters_grow rq st sid sb l n Hrq Hsb Hn)
      as (sb1 & n1 & Hsb1 & Hn1 & Hle).
    destruct (IH _ _ _ Hall Hsb1 Hn1) as (sb' & n' & Hsb' & Hn' & Hle').
    rewrite serve_cons. cbn [snd]. exists sb', n'. repeat split; try done. lia.
Qed.

Lemma counters_nonnegative_handle rq st :
  counters_nonnegative st -> counters_nonnegative (snd (handle W rq st)).
Proof.
  intros Hst sid sb l n. rewrite handle_session_scores.
  destruct rq as [|data|?|]; try apply Hst.
  - destruct (decide (uuid4 W (uuid_draws st) = sid)) as [->|Hne].
    + rewrite lookup_insert_eq. intros [= <-]. rewrite fresh_scoreboard_lookup.
      case_bool_decide; [|done]. by intros [= <-].
    + rewrite lookup_insert_ne by done. apply Hst.
  - destruct (session_scores st !! session_id data) as [sb0|] eqn:Hsb0; [|apply Hst].
    destruct (decide (session_id data = sid)) as [Heq|Hne].
    + rewrite Heq, lookup_insert_eq. intros [= <-]. rewrite counted_lookup.
      case_decide.
      * destruct (sb0 !! l) as [m|] eqn:Hm; [|done]. cbn. intros [= <-].
        pose proof (Hst _ _ _ _ Hsb0 Hm). lia.
      * intros Hm. by eapply Hst.
    + rewrite lookup_insert_ne by done. apply Hst.
Qed.

(** X5. Every counter the process ever holds is a non-negative integer:
    in the state after any run from start-up, no counter of any session is
    below zero. *)
Theorem X5_counters_nonnegative rqs sid sb l n :
  session_scores (snd (serve W rqs (startup W))) !! sid = Some sb ->
  sb !! l = Some n ->
  0 <= n.
Proof.
  revert sid sb l n.
  apply (serve_invariant counters_nonnegative counters_nonnegative_handle).
  intros sid sb l n. by rewrite session_scores_startup, lookup_empty.
Qed.

Lemma sum_counted (ls : list string) (s : string) (sb : scoreboard) (n : Z) :
  NoDup ls ->
  sb !! s = Some n ->
  foldr (fun l acc => default 0 (<[s := n + 1]> sb !! l) + acc) 0 ls =
  foldr (fun l acc => default 0 (sb !! l) + acc) 0 ls +
  (if bool_decide (s ∈ ls) then 1 else 0).
Proof.
  intros Hnd Hn. induction Hnd as [|l ls Hl Hnd IH]; [reflexivity|].
  cbn [foldr]. rewrite IH. destruct (decide (l = s)) as [->|Hne].
  - rewrite lookup_insert_eq, Hn.
    rewrite (bool_decide_eq_true_2 (s ∈ s :: ls)) by apply list_elem_of_here.
    rewrite (bool_decide_eq_false_2 (s ∈ ls)) by done. cbn. lia.
  - rewrite lookup_insert_ne by done.
    destruct (bool_decide (s ∈ ls)) eqn:Hin.
    + apply bool_decide_eq_true in Hin.
      rewrite bool_decide_eq_true_2 by (by apply list_elem_of_further). lia.
    + apply bool_decide_eq_false in Hin.
      rewrite bool_decide_eq_false_2; [lia|].
      intros [?|?]%elem_of_cons; congruence.
Qed.

Lemma total_counted s sb :
  dom sb = stage_set ->
  s ∈ stage_options ->
  total (counted s sb) = total sb + 1.
Proof.
  intros Hdom Hs.
  assert (exists n, sb !! s = Some n) as [n Hn].
  { apply (elem_of_dom (D := gset string)). rewrite Hdom.
    by apply elem_of_list_to_set. }
  assert (NoDup stage_options) as Hnd by (unfold stage_options; compute_done).
  unfold counted, total. rewrite Hn, (sum_counted _ _ _ _ Hnd Hn).
  by rewrite bool_decide_eq_true_2.
Qed.

Lemma resolved_stage_counts data st :
  counting_stage (stage data) = true ->
  resolved_stage W data st ∈ stage_options.
Proof.
  unfold counting_stage, resolved_stage. intros Hs.
  case_bool_decide as Hauto.
  - destruct (detect_in_options W (prompt data) (chat_role data) st) as (s & -> & Hin).
    exact Hin.
  - cbn in Hs. by apply bool_decide_eq_true in Hs.
Qed.

(** X6. The scoreboard is a histogram of the turns: in a reachable state,
    a run of chat requests on one existing session, each with stage "auto"
    or one of the seven labels, raises the sum of the session's seven
    counters by exactly the number of requests, whatever the service
    answers and whether or not its calls fail. *)
Theorem X6_counters_sum_to_turns st sid sb datas :
  reachable W st ->
  session_scores st !! sid = Some sb ->
  forallb (fun d => bool_decide (session_id d = sid) && counting_stage (stage d))
    datas = true ->
  exists sb',
    session_scores (snd (serve W (PostChat <$> datas) st)) !! sid = Some sb' /\
    total sb' = total sb + Z.of_nat (length datas).
Proof.
  intros Hreach Hsb Hall.
  pose proof (reachable_complete W _ Hreach _ _ Hsb) as Hdom. clear Hreach.
  revert st sb Hsb Hdom.
  induction datas as [|data datas IH]; intros st sb Hsb Hdom.
  - exists sb. cbn. split; [done|lia].
  - cbn [forallb] in Hall. apply andb_true_iff in Hall as [Hd Hall].
    apply andb_true_iff in Hd as [Hsid%bool_decide_eq_true Hstage].
    rewrite fmap_cons, serve_cons. cbn [snd handle].
    rewrite <- Hsid in Hsb.
    destruct (IH Hall (snd (chat_handler W data st))
                (counted (resolved_stage W data st) sb)) as (sb' & Hsb' & Htot).
    { rewrite (chat_handler_scores W _ _ _ Hsb), <- Hsid. apply lookup_insert_eq. }
    { by rewrite dom_counted. }
    exists sb'. split; [exact Hsb'|]. rewrite Htot, total_counted; try done.
    + cbn [length]. lia.
    + by apply resolved_stage_counts.
Qed.

(** X7. [/start] stores a scoreboard of zeros under the identifier it
    draws and touches nothing else: the other sessions, the transcript, the
    catalog and the log of calls are as before.  A new identifier makes the
    store one larger; an identifier already in the store keeps the size and
    loses its counts. *)
Theorem X7_start_session_effect st :
  let sid := uuid4 W (uuid_draws st) in
  let st' := snd (start_session W st) in
  session_scores st' !! sid = Some fresh_scoreboard /\
  (forall other, other ≠ sid ->
     session_scores st' !! other = session_scores st !! other) /\
  size (session_scores st') =
    (if bool_decide (sid ∈ dom (session_scores st))
     then size (session_scores st) else S (size (session_scores st))) /\
  chat_history st' = chat_history st /\
  model_calls st' = model_calls st /\
  product_data st' = product_data st /\
  role_scripts st' = role_scripts st.
Proof.
  cbn zeta. cbn [start_session snd session_scores set_session_scores].
  split; [apply lookup_insert_eq|].
  split; [intros other Hne; by rewrite lookup_insert_ne|].
  split; [|done].
  case_bool_decide as Hin.
  - apply elem_of_dom in Hin as [sb Hsb]. by erewrite map_size_insert_Some.
  - apply not_elem_of_dom in Hin. by rewrite map_size_insert_None.
Qed.

(** X8. What [/chat] reports is what [/scores] reports next: after a chat
    request on a known session, [/scores] on that session answers with the
    very scoreboard the chat answer carried, and asking leaves the state
    as it is, so asking again gives the same. *)
Theorem X8_chat_then_scores data st sb :
  session_scores st !! session_id data = Some sb ->
  let sid := session_id data in
  let st' := snd (chat_handler W data st) in
  exists response scores,
    fst (chat_handler W data st) = Ret (ChatBody sid response scores) /\
    get_scores sid st' = (Ret (ScoresBody sid scores), st') /\
    get_scores sid (snd (get_scores sid st')) = (Ret (ScoresBody sid scores), st').
Proof.
  intros Hsb sid st'. unfold st', sid.
  assert (session_scores (snd (chat_handler W data st)) !! session_id data =
          Some (counted (resolved_stage W data st) sb)) as Hsc.
  { rewrite (chat_handler_scores W _ _ _ Hsb). apply lookup_insert_eq. }
  assert (get_scores (session_id data) (snd (chat_handler W data st)) =
          (Ret (ScoresBody (session_id data) (counted (resolved_stage W data st) sb)),
           snd (chat_handler W data st))) as Hq
    by (by rewrite get_scores_run, Hsc).
  eexists _, _. split; [by rewrite (chat_handler_run W _ _ _ Hsb)|].
  split; [exact Hq|]. rewrite Hq. cbn [snd]. exact Hq.
Qed.

(** X9. A chat request on a known session costs one call of the service
    when it names its stage and two when the stage is "auto"; every other
    request, a refused chat included, costs none.  The log of calls only
    grows. *)
Theorem X9_calls_per_request rq st :
  let st' := snd (handle W rq st) in
  model_calls st `prefix_of` model_calls st' /\
  length (model_calls st') = (length (model_calls st) + calls_made rq st)%nat.
Proof.
  cbn zeta. destruct rq as [|data|sid|]; cbn [handle calls_made].
  - cbn. split; [done|lia].
  - destruct (bool_decide (session_id data ∈ dom (session_scores st))) eqn:Hk.
    + apply known_session in Hk as [sb Hsb].
      rewrite (chat_handler_state _ _ _ Hsb). cbn [model_calls].
      unfold calls_before_reply. split.
      * rewrite <- app_assoc. by apply prefix_app_r.
      * rewrite !length_app. case_bool_decide; cbn; lia.
    + apply unknown_session in Hk. rewrite chat_handler_unknown by done.
      cbn. split; [done|lia].
  - rewrite get_scores_run. cbn. split; [done|lia].
  - cbn. split; [done|lia].
Qed.

(** *** The transcript and the log of calls *)

Lemma log_follows_transcript_handle rq st :
  log_follows_transcript st -> log_follows_transcript (snd (handle W rq st)).
Proof.
  intros Hst. destruct rq as [|data|sid|]; cbn [handle].
  - exact Hst.
  - destruct (session_scores st !! session_id data) as [sb|] eqn:Hsb;
      [|by rewrite chat_handler_unknown].
    intros h o. rewrite (chat_handler_state _ _ _ Hsb). cbn [model_calls chat_history].
    unfold calls_before_reply. rewrite !elem_of_app.
    intros [[Hold|Hcls]|Hnew].
    + destruct (Hst _ _ Hold) as [Hpre Hlast]. split; [|exact Hlast].
      rewrite <- app_assoc. by apply prefix_app_r.
    + case_bool_decide; [|by apply elem_of_nil in Hcls].
      by apply list_elem_of_singleton in Hcls.
    + apply list_elem_of_singleton in Hnew. injection Hnew as -> ->.
      split; [by apply prefix_app_r|by eexists _, _].
  - by rewrite get_scores_run.
  - exact Hst.
Qed.

(** X10. The service is never shown anything but the record: in the state
    after any run from start-up, every transcript on the log of calls is a
    beginning of the present transcript, and its last turn is a user
    turn. *)
Theorem X10_calls_see_the_transcript rqs h o :
  (Transcript h, o) ∈ model_calls (snd (serve W rqs (startup W))) ->
  h `prefix_of` chat_history (snd (serve W rqs (startup W))) /\
  exists h0 text, h = h0 ++ [user_turn text].
Proof.
  revert h o.
  apply (serve_invariant log_follows_transcript log_follows_transcript_handle).
  intros h o. destruct startup_quiet as [_ ->]. by intros ?%elem_of_nil.
Qed.

Lemma spoken_by_app who h1 h2 :
  spoken_by who (h1 ++ h2) = (spoken_by who h1 + spoken_by who h2)%nat.
Proof. unfold spoken_by. by rewrite List.filter_app, length_app. Qed.

Lemma reply_calls_app l1 l2 :
  reply_calls (l1 ++ l2) = reply_calls l1 ++ reply_calls l2.
Proof. apply omap_app. Qed.

Lemma turns_match_calls_handle rq st :
  turns_match_calls st -> turns_match_calls (snd (handle W rq st)).
Proof.
  intros [Huser Hmodel]. destruct rq as [|data|sid|]; cbn [handle].
  - by split.
  - destruct (session_scores st !! session_id data) as [sb|] eqn:Hsb;
      [|by rewrite chat_handler_unknown].
    unfold turns_match_calls.
    rewrite (chat_handler_state _ _ _ Hsb). cbn [model_calls chat_history].
    unfold calls_before_reply.
    rewrite !spoken_by_app, !reply_calls_app, !List.filter_app, !length_app,
      Huser, Hmodel.
    case_bool_decide; destruct (reply_outcome W data st); cbn; split; lia.
  - by rewrite get_scores_run.
  - by split.
Qed.

(** X11. The transcript and the log of calls count the same events: in the
    state after any run from start-up there is one user turn for every
    reply-generation call made and one model turn for every such call that
    succeeded, so never more model turns than user turns. *)
Theorem X11_turns_match_calls rqs :
  let st := snd (serve W rqs (startup W)) in
  spoken_by user (chat_history st) = length (reply_calls (model_calls st)) /\
  spoken_by model (chat_history st) =
    length (List.filter succeeded (reply_calls (model_calls st))) /\
  (spoken_by model (chat_history st) <= spoken_by user (chat_history st))%nat.
Proof.
  cbn zeta.
  assert (turns_match_calls (snd (serve W rqs (startup W)))) as [Huser Hmodel].
  { apply (serve_invariant turns_match_calls turns_match_calls_handle).
    unfold turns_match_calls. destruct startup_quiet as [-> ->]. by split. }
  split; [exact Huser|]. split; [exact Hmodel|].
  rewrite Huser, Hmodel. apply List.filter_length_le.
Qed.

(** *** The catalog and the scripts *)

Lemma catalog_kept_handle rq st :
  product_data st ≠ [] ->
  product_data (snd (handle W rq st)) = product_data st /\
  catalog_reads (snd (handle W rq st)) = catalog_reads st.
Proof.
  intros Hne. destruct rq as [|data|sid|]; cbn [handle]; try done.
  - destruct (session_scores st !! session_id data) as [sb|] eqn:Hsb;
      [|by rewrite chat_handler_unknown].
    rewrite (chat_handler_state _ _ _ Hsb). cbn [product_data catalog_reads].
    unfold catalog_in_use. by destruct (product_data st).
  - by rewrite get_scores_run.
Qed.

(** X12. A catalog that holds an entry is never loaded again: from a state
    with a non-empty catalog, no run of requests changes the catalog or
    reads the product files. *)
Theorem X12_catalog_loaded_once rqs st :
  product_data st ≠ [] ->
  product_data (snd (serve W rqs st)) = product_data st /\
  catalog_reads (snd (serve W rqs st)) = catalog_reads st.
Proof.
  revert st. induction rqs as [|rq rqs IH]; intros st Hne; [done|].
  rewrite serve_cons. cbn [snd].
  destruct (catalog_kept_handle rq st Hne) as [Hpd Hcr].
  destruct (IH (snd (handle W rq st))) as [Hpd' Hcr']; [by rewrite Hpd|].
  by rewrite Hpd', Hcr', Hpd, Hcr.
Qed.

(** X13. While the catalog is empty, each chat request on a known session
    reads the product files once more before composing: the catalog it
    leaves, and composes from, is what that read gives, and is still empty
    when the read gives nothing.  A failed read is no error: the request is
    answered 200 and the prompt says "No product data.". *)
Theorem X13_empty_catalog_is_retried data st sb :
  session_scores st !! session_id data = Some sb ->
  product_data st = [] ->
  let st' := snd (chat_handler W data st) in
  let found := default [] (read_products W (catalog_reads st)) in
  catalog_reads st' = S (catalog_reads st) /\
  product_data st' = found /\
  catalog_in_use W st = found /\
  http_status (fst (chat_handler W data st)) = 200 /\
  (found = [] -> contains (composed W data st) "No product data.").
Proof.
  intros Hsb Hempty st' found. unfold st', found.
  assert (catalog_in_use W st = default [] (read_products W (catalog_reads st))) as Hcat.
  { unfold catalog_in_use, load_local_product_data. rewrite Hempty.
    destruct (read_products W (catalog_reads st)); cbn; [reflexivity|exact Hempty]. }
  rewrite (chat_handler_state _ _ _ Hsb), (chat_handler_run W _ _ _ Hsb).
  cbn [catalog_reads product_data fst http_status]. rewrite Hempty, Hcat.
  repeat split. intros Hnone. unfold composed, full_prompt. rewrite Hcat, Hnone.
  do 5 apply contains_app_r. apply contains_app_l, contains_refl.
Qed.

Lemma role_scripts_handle rq st :
  role_scripts (snd (handle W rq st)) = role_scripts st.
Proof.
  destruct rq as [|data|sid|]; cbn [handle]; try done.
  - destruct (session_scores st !! session_id data) as [sb|] eqn:Hsb;
      [|by rewrite chat_handler_unknown].
    by rewrite (chat_handler_state _ _ _ Hsb).
  - by rewrite get_scores_run.
Qed.

Lemma role_scripts_startup r :
  role_scripts (startup W) r = default [] (script_lines <$> read_script W r).
Proof.
  unfold startup, load_local_scripts, load_script, load_local_product_data,
    mbind, M_bind. cbn.
  destruct r;
    destruct (read_products W 0%nat); cbn;
    destruct (read_script W seller); cbn;
    destruct (read_script W buyer); reflexivity.
Qed.

(** X14. The scripts are those of start-up for good: in the state after any
    run from start-up, the script of each role is the lines its file gave
    when the process started, or the empty list when the file was missing
    or unreadable; loading one role never disturbs the other. *)
Theorem X14_scripts_fixed_at_startup rqs r :
  role_scripts (snd (serve W rqs (startup W))) r =
  default [] (script_lines <$> read_script W r).
Proof.
  rewrite <- role_scripts_startup.
  apply (serve_invariant (fun st => role_scripts st r = role_scripts (startup W) r));
    [|reflexivity].
  intros rq st Hst. by rewrite role_scripts_handle.
Qed.

Lemma split_nl_nonempty s : split_nl s ≠ [].
Proof.
  destruct s as [|c s]; cbn [split_nl]; [done|].
  destruct (Ascii.eqb c (Ascii.ascii_of_nat 10)); [done|].
  by destruct (split_nl s).
Qed.

(** ["\n".join(s.split("\n")) == s] *)
Lemma join_split_nl s : join nl (split_nl s) = s.
Proof.
  induction s as [|c s IH]; [reflexivity|].
  cbn [split_nl]. pose proof (split_nl_nonempty s) as Hne.
  destruct (split_nl s) as [|x xs]; [done|]. clear Hne.
  destruct (Ascii.eqb c (Ascii.ascii_of_nat 10)) eqn:Hc.
  - apply Ascii.eqb_eq in Hc as ->.
    change (join nl ("" :: x :: xs)) with (nl +:+ join nl (x :: xs)).
    by rewrite IH.
  - destruct xs as [|y ys].
    + cbn [join] in *. by rewrite IH.
    + change (String c (join nl (x :: y :: ys)) = String c s).
      by rewrite IH.
Qed.

(** X15. A script file reaches the prompt whole.  When the file of a role
    reads as [content], the script of that role in any state after
    start-up has at least one line, its lines joined by newlines are
    [content] without its leading and trailing blanks, and the script part
    of the prompt is the heading followed by exactly that text; for a file
    of blanks only, the heading with nothing under it. *)
Theorem X15_script_file_reaches_prompt rqs r content :
  read_script W r = Some content ->
  let script := role_scripts (snd (serve W rqs (startup W))) r in
  script = split_nl (strip content) /\
  script ≠ [] /\
  join nl script = strip content /\
  script_section script = nl +:+ nl +:+ "Script:" +:+ nl +:+ strip content.
Proof.
  intros Hfile script.
  assert (script = split_nl (strip content)) as ->.
  { unfold script.
    transitivity (role_scripts (startup W) r).
    - apply (serve_invariant
               (fun st => role_scripts st r = role_scripts (startup W) r));
        [|reflexivity].
      intros rq st Hst. by rewrite role_scripts_handle.
    - by rewrite role_scripts_startup, Hfile. }
  split; [reflexivity|]. split; [apply split_nl_nonempty|].
  split; [apply join_split_nl|].
  unfold script_section. pose proof (split_nl_nonempty (strip content)) as Hne.
  pose proof (join_split_nl (strip content)) as Hjoin.
  destruct (split_nl (strip content)); [done|]. by rewrite Hjoin.
Qed.

(** *** The normal form of the classifier's answer *)

Lemma string_strong_ind (P : string -> Prop) :
  (forall s, (forall t, (String.length t < String.length s)%nat -> P t) -> P s) ->
  forall s, P s.
Proof.
  intros Hstep s. remember (String.length s) as n eqn:Hn.
  revert s Hn. induction (lt_wf n) as [n _ IH]. intros s ->.
  apply Hstep. intros t Ht. by eapply IH.
Qed.

Lemma lstrip_cons a s1 :
  lstrip (String a s1) =
  if is_white (String a EmptyString) then lstrip s1
  else
    match s1 with
    | String b s2 =>
        if is_white (String a (String b EmptyString)) then lstrip s2
        else
          match s2 with
          | String c s3 =>
              if is_white (String a (String b (String c EmptyString)))
              then lstrip s3 else String a s1
          | EmptyString => String a s1
          end
    | EmptyString => String a s1
    end.
Proof. reflexivity. Qed.

Lemma lstrip_unfold s :
  lstrip s = match white_prefix s with Some rest => lstrip rest | None => s end.
Proof.
  destruct s as [|a s1]; [reflexivity|]. rewrite lstrip_cons. unfold white_prefix.
  destruct (is_white (String a "")); [reflexivity|].
  destruct s1 as [|b s2]; [reflexivity|].
  destruct (is_white (String a (String b ""))); [reflexivity|].
  destruct s2 as [|c s3]; [reflexivity|].
  by destruct (is_white (String a (String b (String c "")))).
Qed.

Lemma white_prefix_length s rest :
  white_prefix s = Some rest -> (String.length rest < String.length s)%nat.
Proof.
  destruct s as [|a [|b [|c s3]]]; cbn [white_prefix];
    repeat match goal with |- context [if ?x then _ else _] => destruct x end;
    intros [= <-]; cbn; lia.
Qed.

Lemma white_prefix_split s rest :
  white_prefix s = Some rest -> exists w, is_white w = true /\ s = w +:+ rest.
Proof.
  destruct s as [|a [|b [|c s3]]]; cbn [white_prefix];
    repeat match goal with
           | |- context [if ?x then _ else _] => destruct x eqn:?
           end;
    intros [= <-]; eauto.
Qed.

Lemma white_prefix_app s r rest :
  white_prefix s = Some rest -> white_prefix (s +:+ r) = Some (rest +:+ r).
Proof.
  destruct s as [|a [|b [|c s3]]]; cbn [white_prefix];
    repeat match goal with
           | |- context [if ?x then _ else _] => destruct x eqn:?
           end;
    intros [= <-];
    repeat match goal with
           | |- context [String ?x ?y +:+ ?z] =>
               change (String x y +:+ z) with (String x (y +:+ z))
           end;
    cbn [white_prefix];
    repeat match goal with H : is_white _ = _ |- _ => rewrite H end;
    reflexivity.
Qed.

Ltac white_cases H :=
  apply bool_decide_eq_true in H; vm_compute in H;
  repeat (apply elem_of_cons in H as [H|H]; [simplify_eq|]);
  try (by apply elem_of_nil in H).

Lemma white_lower_fix w : is_white w = true -> lower w = w.
Proof. intros H. white_cases H; reflexivity. Qed.

Lemma white_rstrip w : is_white w = true -> rstrip w = "".
Proof. intros H. white_cases H; reflexivity. Qed.

Lemma white_first_lead b r : is_white (String b r) = true -> lead b = true.
Proof. intros H. white_cases H; reflexivity. Qed.

Lemma white_second_not_lead a b r : is_white (String a (String b r)) = true -> lead b = false.
Proof. intros H. white_cases H; reflexivity. Qed.

Lemma white_third_not_lead a b c r :
  is_white (String a (String b (String c r))) = true -> lead c = false.
Proof. intros H. white_cases H; reflexivity. Qed.

Lemma white_no_small w : is_white w = true -> no_small w = true.
Proof. intros H. white_cases H; reflexivity. Qed.

Lemma lower_char_same a :
  no_small (String (lower_char a) "") = true -> lower_char a = a.
Proof. destruct a as [[] [] [] [] [] [] [] []]; cbn; intros; done. Qed.

Lemma lower_same t : no_small (lower t) = true -> lower t = t.
Proof.
  induction t as [|a t IH]; [done|].
  cbn [lower no_small]. intros [Ha Ht]%andb_true_iff.
  rewrite IH by done. f_equal. apply lower_char_same. cbn [no_small].
  by rewrite Ha.
Qed.

Lemma is_white_lower t : is_white (lower t) = is_white t.
Proof.
  destruct (is_white (lower t)) eqn:H1.
  - rewrite (lower_same t) in H1 by (by apply white_no_small). by rewrite H1.
  - destruct (is_white t) eqn:H2; [|reflexivity].
    rewrite (white_lower_fix t H2) in H1. congruence.
Qed.

Lemma white_prefix_lower s : white_prefix (lower s) = lower <$> white_prefix s.
Proof.
  destruct s as [|a s1]; [reflexivity|].
  cbn [lower]. unfold white_prefix.
  change (String (lower_char a) "") with (lower (String a "")).
  rewrite is_white_lower. destruct (is_white (String a "")); [reflexivity|].
  destruct s1 as [|b s2]; [reflexivity|]. cbn [lower].
  change (String (lower_char a) (String (lower_char b) ""))
    with (lower (String a (String b ""))).
  rewrite is_white_lower. destruct (is_white (String a (String b ""))); [reflexivity|].
  destruct s2 as [|c s3]; [reflexivity|]. cbn [lower].
  change (String (lower_char a) (String (lower_char b) (String (lower_char c) "")))
    with (lower (String a (String b (String c "")))).
  rewrite is_white_lower.
  by destruct (is_white (String a (String b (String c "")))).
Qed.

Lemma length_lower s : String.length (lower s) = String.length s.
Proof. induction s as [|a s IH]; [done|]. cbn. by rewrite IH. Qed.

Lemma lstrip_lower s : lstrip (lower s) = lower (lstrip s).
Proof.
  induction s as [s IH] using string_strong_ind.
  rewrite (lstrip_unfold (lower s)), (lstrip_unfold s), white_prefix_lower.
  destruct (white_prefix s) as [rest|] eqn:Hs; [|reflexivity].
  cbn. apply IH. by apply white_prefix_length.
Qed.

Lemma rstrip_lower s : rstrip (lower s) = lower (rstrip s).
Proof.
  induction s as [|c s IH]; [reflexivity|].
  cbn [lower rstrip]. rewrite IH.
  change (String (lower_char c) (lower (rstrip s)))
    with (lower (String c (rstrip s))).
  rewrite is_white_lower. by destruct (is_white (String c (rstrip s))).
Qed.

Lemma strip_lower s : strip (lower s) = lower (strip s).
Proof. unfold strip. by rewrite lstrip_lower, rstrip_lower. Qed.

Lemma blank_lstrip s : blank s = true <-> lstrip s = "".
Proof. unfold blank. apply String.eqb_eq. Qed.

Lemma lstrip_blank_app l s : blank l = true -> lstrip (l +:+ s) = lstrip s.
Proof.
  rewrite blank_lstrip. induction l as [l IH] using string_strong_ind.
  rewrite (lstrip_unfold l). destruct (white_prefix l) as [rest|] eqn:Hl.
  - intros Hrest. rewrite lstrip_unfold, (white_prefix_app _ _ _ Hl).
    apply IH; [by apply white_prefix_length|exact Hrest].
  - by intros ->.
Qed.

Lemma rstrip_app_stripped s r : rstrip r = "" -> rstrip (s +:+ r) = rstrip s.
Proof.
  intros Hr. induction s as [|c s IH]; [exact Hr|].
  change (String c s +:+ r) with (String c (s +:+ r)).
  cbn [rstrip]. by rewrite IH.
Qed.

Lemma rstrip_blank r : blank r = true -> rstrip r = "".
Proof.
  rewrite blank_lstrip. induction r as [r IH] using string_strong_ind.
  rewrite (lstrip_unfold r). destruct (white_prefix r) as [rest|] eqn:Hr.
  - intros Hrest. destruct (white_prefix_split _ _ Hr) as (w & Hw & ->).
    rewrite rstrip_app_stripped; [by apply white_rstrip|].
    apply IH; [by apply white_prefix_length in Hr|exact Hrest].
  - by intros ->.
Qed.

Lemma blank_first_lead b r : blank (String b r) = true -> lead b = true.
Proof.
  rewrite blank_lstrip, lstrip_unfold.
  destruct (white_prefix (String b r)) as [rest|] eqn:Hr; [|done].
  intros _. destruct (white_prefix_split _ _ Hr) as (w & Hw & Heq).
  destruct w as [|x w]; [by white_cases Hw|].
  injection Heq as -> _. by apply white_first_lead in Hw.
Qed.

Lemma white_prefix_none_app s r :
  white_prefix s = None -> s ≠ "" -> blank r = true ->
  white_prefix (s +:+ r) = None.
Proof.
  intros Hs Hne Hr. destruct s as [|a s1]; [done|]. clear Hne.
  change (String a s1 +:+ r) with (String a (s1 +:+ r)).
  unfold white_prefix in *.
  destruct (is_white (String a "")); [done|].
  destruct s1 as [|a2 s2].
  - change ("" +:+ r) with r. destruct r as [|b r2]; [reflexivity|].
    pose proof (blank_first_lead _ _ Hr) as Hb.
    destruct (is_white (String a (String b ""))) eqn:H2.
    { apply white_second_not_lead in H2. congruence. }
    destruct r2 as [|c r3]; [reflexivity|].
    destruct (is_white (String a (String b (String c "")))) eqn:H3; [|reflexivity].
    apply white_second_not_lead in H3. congruence.
  - change (String a2 s2 +:+ r) with (String a2 (s2 +:+ r)). cbv beta iota.
    destruct (is_white (String a (String a2 ""))); [done|].
    destruct s2 as [|a3 s3].
    + change ("" +:+ r) with r. destruct r as [|b r2]; [reflexivity|].
      pose proof (blank_first_lead _ _ Hr) as Hb.
      destruct (is_white (String a (String a2 (String b "")))) eqn:H3; [|reflexivity].
      apply white_third_not_lead in H3. congruence.
    + change (String a3 s3 +:+ r) with (String a3 (s3 +:+ r)). cbv beta iota.
      by destruct (is_white (String a (String a2 (String a3 "")))).
Qed.

Lemma lstrip_app_blank s r :
  blank r = true ->
  lstrip (s +:+ r) = match lstrip s with "" => "" | _ => lstrip s +:+ r end.
Proof.
  intros Hr. induction s as [s IH] using string_strong_ind.
  rewrite (lstrip_unfold s). destruct (white_prefix s) as [rest|] eqn:Hs.
  - rewrite lstrip_unfold, (white_prefix_app _ _ _ Hs).
    apply IH. by apply white_prefix_length.
  - destruct s as [|a s1].
    + by apply blank_lstrip in Hr.
    + by rewrite lstrip_unfold, white_prefix_none_app.
Qed.

Lemma strip_padded l s r :
  blank l = true -> blank r = true -> strip (l +:+ s +:+ r) = strip s.
Proof.
  intros Hl Hr. unfold strip.
  rewrite lstrip_blank_app, lstrip_app_blank by done.
  destruct (lstrip s) eqn:Hs; [reflexivity|].
  by rewrite rstrip_app_stripped by (by apply rstrip_blank).
Qed.

(** X16. The classifier reads the service's answer through white space and
    the case of the letters A to Z: an answer that is some text between
    strings of white-space characters gives the same stage as any answer
    that is that text with those letters in another case, whatever the
    prompts, the roles and the states of the two calls. *)
Theorem X16_classifier_ignores_padding_and_case
    (W' : World) p r st p' r' st' pad_l text pad_r text' :
  blank pad_l = true ->
  blank pad_r = true ->
  lower text = lower text' ->
  classification W p r st = Generated (pad_l +:+ text +:+ pad_r) ->
  classification W' p' r' st' = Generated text' ->
  fst (detect_conversation_stage W p r st) =
  fst (detect_conversation_stage W' p' r' st').
Proof.
  intros Hl Hr Hcase Ho Ho'.
  rewrite !detect_conversation_stage_run. cbn [fst]. rewrite Ho, Ho'.
  by rewrite strip_padded, <- !strip_lower, Hcase.
Qed.

(** *** What the transcript and the store are made of *)

Lemma transcript_is_logged_handle rq st :
  transcript_is_logged st -> transcript_is_logged (snd (handle W rq st)).
Proof.
  intros Hst. destruct rq as [|data|sid|]; cbn [handle].
  - exact Hst.
  - destruct (session_scores st !! session_id data) as [sb|] eqn:Hsb;
      [|by rewrite chat_handler_unknown].
    intros t. rewrite (chat_handler_state _ _ _ Hsb). cbn [model_calls chat_history].
    rewrite !elem_of_app. intros [[Hold|Huser]|Hmodel].
    + specialize (Hst t Hold). destruct (turn_role t).
      * destruct Hst as (h & o & Hin). exists h, o.
        unfold calls_before_reply. rewrite !elem_of_app. by left; left.
      * destruct Hst as (h & reply & Hparts & Hin). exists h, reply.
        split; [exact Hparts|].
        unfold calls_before_reply. rewrite !elem_of_app. by left; left.
    + apply list_elem_of_singleton in Huser as ->. cbn [turn_role user_turn].
      eexists _, _. rewrite elem_of_app. right. by apply list_elem_of_singleton.
    + destruct (reply_outcome W data st) as [reply|reason];
        [|by apply elem_of_nil in Hmodel].
      apply list_elem_of_singleton in Hmodel as ->. cbn [turn_role model_turn].
      eexists _, reply. split; [reflexivity|].
      rewrite elem_of_app. right. by apply list_elem_of_singleton.
  - by rewrite get_scores_run.
  - exact Hst.
Qed.

(** X17. The transcript holds nothing but what went to the service and
    what came back: in the state after any run from start-up, every user
    turn is the last turn of a transcript some generation call was given,
    and every model turn carries the text some generation call answered.
    Error markers and classification instructions never enter it. *)
Theorem X17_transcript_is_logged rqs t :
  let st := snd (serve W rqs (startup W)) in
  t ∈ chat_history st ->
  match turn_role t with
  | user => exists h o, (Transcript (h ++ [t]), o) ∈ model_calls st
  | model =>
      exists h reply,
        parts t = [reply] /\ (Transcript h, Generated reply) ∈ model_calls st
  end.
Proof.
  cbn zeta. revert t.
  apply (serve_invariant transcript_is_logged transcript_is_logged_handle).
  intros t. destruct startup_quiet as [-> _]. by intros ?%elem_of_nil.
Qed.

(** X18. The store holds the sessions [/start] has made and no others: in
    the state after any run from start-up, an identifier is a key of the
    store exactly when some [/start] of the run answered with it, so the
    store has at most as many sessions as the run has [/start] requests. *)
Theorem X18_store_is_the_created_sessions rqs sid :
  let answers := fst (serve W rqs (startup W)) in
  let st := snd (serve W rqs (startup W)) in
  (sid ∈ dom (session_scores st) <-> sid ∈ created_ids answers) /\
  (size (session_scores st) <= length (List.filter is_start rqs))%nat.
Proof.
  cbn zeta. split.
  - rewrite dom_session_scores_serve, session_scores_startup, dom_empty_L.
    rewrite elem_of_union, elem_of_list_to_set. set_solver.
  - assert (forall st,
              (size (session_scores (snd (serve W rqs st))) <=
               size (session_scores st) + length (List.filter is_start rqs))%nat)
      as Hsize.
    { induction rqs as [|rq rqs IH]; intros st; [cbn; lia|].
      rewrite serve_cons. cbn [snd]. etrans; [apply IH|].
      rewrite handle_session_scores. destruct rq as [|data|?|]; cbn.
      - rewrite map_size_insert. destruct (session_scores st !! _); cbn; lia.
      - destruct (session_scores st !! session_id data) as [sb|] eqn:Hsb; [|lia].
        rewrite map_size_insert_Some by eauto. lia.
      - lia.
      - lia. }
    etrans; [apply Hsize|]. by rewrite session_scores_startup, map_size_empty.
Qed.

End Further.

(** ** The further properties at work *)

(** Session "s0" outlives a turn, another [/start] and a liveness check. *)
Lemma X2_witness :
  http_status
    (fst (get_scores "s0"
            (snd (serve helpful_world [PostChat (hello "auto"); GetStart; GetRoot]
                    (one_session helpful_world))))) = 200.
Proof.
  pose proof (X2_sessions_persist helpful_world "s0" (one_session helpful_world)
                [PostChat (hello "auto"); GetStart; GetRoot] (hello "opening")) as Hx.
  destruct Hx as (_ & Hok & _).
  - apply (elem_of_dom_2 _ _ fresh_scoreboard). vm_compute. reflexivity.
  - reflexivity.
  - exact Hok.
Defined.

(** A turn of session "s1" leaves the scoreboard of "s0" as it was. *)
Lemma X3_witness :
  session_scores
    (snd (serve helpful_world [PostChat hello_s1; GetScores "s1"; GetRoot]
            two_sessions)) !! "s0" =
  session_scores two_sessions !! "s0".
Proof.
  apply (X3_sessions_do_not_interfere helpful_world "s0"
           [PostChat hello_s1; GetScores "s1"; GetRoot] two_sessions).
  vm_compute. reflexivity.
Defined.

(** The "closing" counter of "s0" is not lower after a classified turn. *)
Lemma X4_witness :
  exists sb' n',
    session_scores
      (snd (serve helpful_world [PostChat (hello "auto"); GetScores "s0"]
              (one_session helpful_world))) !! "s0" = Some sb' /\
    sb' !! "closing" = Some n' /\ 0 <= n'.
Proof.
  apply (X4_counters_never_decrease helpful_world
           [PostChat (hello "auto"); GetScores "s0"] (one_session helpful_world)
           "s0" fresh_scoreboard "closing" 0).
  - vm_compute. reflexivity.
  - vm_compute. reflexivity.
  - vm_compute. reflexivity.
Defined.

Lemma X5_witness :
  session_scores
    (snd (serve helpful_world [GetStart; PostChat (hello "auto")]
            (startup helpful_world))) !! "s0" =
    Some (<["closing" := 1]> fresh_scoreboard) /\
  0 <= 1.
Proof.
  assert (session_scores
            (snd (serve helpful_world [GetStart; PostChat (hello "auto")]
                    (startup helpful_world))) !! "s0" =
          Some (<["closing" := 1]> fresh_scoreboard)) as Hsb
    by (vm_compute; reflexivity).
  split; [exact Hsb|].
  apply (X5_counters_nonnegative helpful_world [GetStart; PostChat (hello "auto")]
           "s0" (<["closing" := 1]> fresh_scoreboard) "closing" 1 Hsb).
  vm_compute. reflexivity.
Defined.

(** Three turns, two of them classified: the counters sum to three. *)
Lemma X6_witness :
  exists sb',
    session_scores
      (snd (serve helpful_world (PostChat <$> three_turns)
              (one_session helpful_world))) !! "s0" = Some sb' /\
    total sb' = total fresh_scoreboard + 3.
Proof.
  apply (X6_counters_sum_to_turns helpful_world (one_session helpful_world)
           "s0" fresh_scoreboard three_turns).
  - exists [GetStart]. reflexivity.
  - vm_compute. reflexivity.
  - vm_compute. reflexivity.
Defined.

Lemma X8_witness :
  exists response scores,
    fst (chat_handler helpful_world (hello "opening") (one_session helpful_world)) =
      Ret (ChatBody "s0" response scores) /\
    fst (get_scores "s0"
           (snd (chat_handler helpful_world (hello "opening")
                   (one_session helpful_world)))) =
      Ret (ScoresBody "s0" scores).
Proof.
  destruct (X8_chat_then_scores helpful_world (hello "opening")
              (one_session helpful_world) fresh_scoreboard)
    as (response & scores & Hchat & Hq & _).
  - vm_compute. reflexivity.
  - exists response, scores. split; [exact Hchat|].
    exact (f_equal fst Hq).
Defined.

(** The one generation call of the run was given the user turn, and the
    transcript now begins with it. *)
Lemma X10_witness :
  [user_turn (composed helpful_world (hello "opening") (one_session helpful_world))]
  `prefix_of`
  chat_history (snd (serve helpful_world [GetStart; PostChat (hello "opening")]
                       (startup helpful_world))).
Proof.
  destruct (X10_calls_see_the_transcript helpful_world
              [GetStart; PostChat (hello "opening")]
              [user_turn (composed helpful_world (hello "opening")
                            (one_session helpful_world))]
              (Generated "Deal.")) as [Hpre _].
  - vm_compute. apply list_elem_of_here.
  - exact Hpre.
Defined.

(** The catalog read at start-up is kept and not read again. *)
Lemma X12_witness :
  catalog_reads
    (snd (serve helpful_world [GetStart; PostChat (hello "auto")]
            (startup helpful_world))) = 1%nat.
Proof.
  destruct (X12_catalog_loaded_once helpful_world
              [GetStart; PostChat (hello "auto")] (startup helpful_world))
    as [_ Hreads].
  - vm_compute. discriminate.
  - rewrite Hreads. reflexivity.
Defined.

(** No product file: the turn is answered and says so in the prompt. *)
Lemma X13_witness :
  http_status (fst (chat_handler failing_world (hello "opening")
                      (one_session failing_world))) = 200 /\
  contains (composed failing_world (hello "opening") (one_session failing_world))
    "No product data.".
Proof.
  destruct (X13_empty_catalog_is_retried failing_world (hello "opening")
              (one_session failing_world) fresh_scoreboard)
    as (_ & _ & _ & Hok & Hnone).
  - vm_compute. reflexivity.
  - reflexivity.
  - split; [exact Hok|]. apply Hnone. reflexivity.
Defined.

(** A script file with blanks around its two lines. *)
Lemma X15_witness :
  role_scripts (snd (serve terse_world [GetStart] (startup terse_world))) seller =
    ["Greet"; "Offer"] /\
  script_section
    (role_scripts (snd (serve terse_world [GetStart] (startup terse_world))) seller) =
    nl +:+ nl +:+ "Script:" +:+ nl +:+ "Greet" +:+ nl +:+ "Offer".
Proof.
  destruct (X15_script_file_reaches_prompt terse_world [GetStart] seller
              ("  Greet" +:+ nl +:+ "Offer" +:+ nl)) as (Hlines & _ & _ & Hsec).
  - reflexivity.
  - split; [exact Hlines|exact Hsec].
Defined.

(** The padded answer in capitals and the bare "closing" are the same
    answer. *)
Lemma X16_witness :
  fst (detect_conversation_stage padded_world "Hi" seller (startup padded_world)) =
  fst (detect_conversation_stage terse_world "Bye" buyer (startup terse_world)).
Proof.
  apply (X16_classifier_ignores_padding_and_case padded_world terse_world
           "Hi" seller (startup padded_world) "Bye" buyer (startup terse_world)
           nbsp "CLOSING" (line_separator +:+ nl) "closing").
  - reflexivity.
  - reflexivity.
  - reflexivity.
  - reflexivity.
  - reflexivity.
Defined.

(** The model turn "Deal." is an answer on the log. *)
Lemma X17_witness :
  exists h reply,
    parts (model_turn "Deal.") = [reply] /\
    (Transcript h, Generated reply) ∈
      model_calls (snd (serve helpful_world [GetStart; PostChat (hello "opening")]
                          (startup helpful_world))).
Proof.
  apply (X17_transcript_is_logged helpful_world
           [GetStart; PostChat (hello "opening")] (model_turn "Deal.")).
  vm_compute. apply list_elem_of_further, list_elem_of_here.
Defined.
